(** * Signed-URL worker: a shallow embedding of [src/index.ts]

    The worker answers one HTTP request at a time.  It serves public
    objects under [/assets/], hands out signed URLs under [/generate/],
    and serves objects under [/uploads/] and [/invoices/] only when the
    request carries a [verify] query parameter holding a fresh timestamp
    and an HMAC-SHA256 tag over the path and that timestamp.

    Layout of the development:
    - [SHA256]: the hash and the HMAC the platform's [crypto.subtle]
      computes;
    - [Base64]: [Buffer.toString("base64")] and the lenient
      [Buffer.from(_, "base64")];
    - [JS]: the few ECMAScript string and number primitives the handler
      calls ([startsWith], [substring], [replace], [split], [Number],
      number-to-string conversion);
    - [Web]: URLs and their query, responses, the bucket, thrown
      exceptions and the log of bucket reads;
    - [Worker]: the handler [fetch] itself, over an explicit clock and an
      explicit bucket;
    - [Spec]: the vocabulary of the specification (classifier, token
      format, validity, parsing rules), written from its wording;
    - [Counting]: all byte strings of a length and a family of paths,
      for the pigeonhole argument on MACs;
    - the facts about each layer, then the claims about the handler. *)

From Stdlib Require Import ZArith NArith List String Ascii Bool Lia.
From Stdlib Require Import DecimalString DecimalN.
Import ListNotations.

Local Open Scope Z_scope.

(** ** Bytes

    A byte is an [ascii]; a [Uint8Array], an [ArrayBuffer] or a Node
    [Buffer] is a list of them.  A JavaScript string is modelled by the
    bytes of its UTF-8 encoding, so [TextEncoder.encode] only changes the
    container. *)

Definition byte := ascii.
Definition bytes := list byte.

Definition byte_to_Z (b : byte) : Z := Z.of_N (N_of_ascii b).
Definition byte_of_Z (z : Z) : byte := ascii_of_N (Z.to_N (z mod 256)).

Definition encode (s : string) : bytes := list_ascii_of_string s.

Fixpoint bytes_eqb (a b : bytes) : bool :=
  match a, b with
  | [], [] => true
  | x :: a', y :: b' => Ascii.eqb x y && bytes_eqb a' b'
  | _, _ => false
  end.

(** ** SHA-256 and HMAC (FIPS 180-4, RFC 2104)

    [crypto.subtle.sign("HMAC", key, data)] with a key imported for
    [{ name: "HMAC", hash: "SHA-256" }]. Words are 32-bit integers held in
    [Z]; every addition is reduced modulo [2^32]. *)

Module SHA256.

Definition w32 (x : Z) : Z := x mod 4294967296.

Definition add32 (x y : Z) : Z := w32 (x + y).

Definition rotr (n x : Z) : Z :=
  Z.lor (Z.shiftr x n) (w32 (Z.shiftl x (32 - n))).

Definition not32 (x : Z) : Z := Z.lxor x 4294967295.

Definition Ch (x y z : Z) : Z := Z.lxor (Z.land x y) (Z.land (not32 x) z).

Definition Maj (x y z : Z) : Z :=
  Z.lxor (Z.lxor (Z.land x y) (Z.land x z)) (Z.land y z).

Definition bsig0 (x : Z) : Z := Z.lxor (Z.lxor (rotr 2 x) (rotr 13 x)) (rotr 22 x).
Definition bsig1 (x : Z) : Z := Z.lxor (Z.lxor (rotr 6 x) (rotr 11 x)) (rotr 25 x).
Definition ssig0 (x : Z) : Z := Z.lxor (Z.lxor (rotr 7 x) (rotr 18 x)) (Z.shiftr x 3).
Definition ssig1 (x : Z) : Z := Z.lxor (Z.lxor (rotr 17 x) (rotr 19 x)) (Z.shiftr x 10).

(** The round constants are the first 32 bits of the fractional parts of
    the cube roots of the first 64 primes, the initial hash value those of
    the square roots of the first 8 primes. *)

Definition is_prime (n : nat) : bool :=
  (1 <? n)%nat && forallb (fun d => negb (n mod d =? 0)%nat) (seq 2 (n - 2)).

Definition primes (count : nat) : list Z :=
  map Z.of_nat (firstn count (filter is_prime (seq 2 310))).

Fixpoint cube_root_between (fuel : nat) (lo hi x : Z) : Z :=
  match fuel with
  | O => lo
  | S fuel' =>
      let mid := (lo + hi) / 2 in
      if mid * mid * mid <=? x then cube_root_between fuel' mid hi x
      else cube_root_between fuel' lo mid x
  end.

Definition cube_root (x : Z) : Z := cube_root_between 128 0 (x + 1) x.

Definition K : list Z :=
  Eval vm_compute in map (fun p => w32 (cube_root (p * 2 ^ 96))) (primes 64).

Definition H0 : list Z :=
  Eval vm_compute in map (fun p => w32 (Z.sqrt (p * 2 ^ 64))) (primes 8).

(** Padding: a [0x80] byte, zero bytes up to 56 modulo 64, then the bit
    length as a 64-bit big-endian integer. *)

Fixpoint be_bytes (n : nat) (x : Z) : list Z :=
  match n with
  | O => []
  | S n' => (Z.shiftr x (8 * Z.of_nat n')) mod 256 :: be_bytes n' x
  end.

Definition pad (msg : list Z) : list Z :=
  let len := Z.of_nat (List.length msg) in
  let zeros := Z.to_nat ((55 - len) mod 64) in
  msg ++ [128] ++ List.repeat 0 zeros ++ be_bytes 8 (8 * len).

Fixpoint be_words (fuel : nat) (bs : list Z) : list Z :=
  match fuel, bs with
  | S fuel', b0 :: b1 :: b2 :: b3 :: rest =>
      (b0 * 16777216 + b1 * 65536 + b2 * 256 + b3) :: be_words fuel' rest
  | _, _ => []
  end.

Definition words_of (bs : list Z) : list Z := be_words (List.length bs) bs.

Fixpoint blocks (fuel : nat) (ws : list Z) : list (list Z) :=
  match fuel, ws with
  | S fuel', _ :: _ => firstn 16 ws :: blocks fuel' (skipn 16 ws)
  | _, _ => []
  end.

(** The eight working variables together with the sliding window of the
    last sixteen schedule words. *)

Record vars := mkVars { va : Z; vb : Z; vc : Z; vd : Z; ve : Z; vf : Z; vg : Z; vh : Z }.

Definition next_w (win : list Z) : Z :=
  add32 (add32 (ssig1 (nth 14 win 0)) (nth 9 win 0))
        (add32 (ssig0 (nth 1 win 0)) (nth 0 win 0)).

Definition round (st : vars * list Z) (k : Z) : vars * list Z :=
  let (v, win) := st in
  let wt := nth 0 win 0 in
  let t1 := add32 (add32 (add32 (vh v) (bsig1 (ve v))) (add32 (Ch (ve v) (vf v) (vg v)) k)) wt in
  let t2 := add32 (bsig0 (va v)) (Maj (va v) (vb v) (vc v)) in
  (mkVars (add32 t1 t2) (va v) (vb v) (vc v) (add32 (vd v) t1) (ve v) (vf v) (vg v),
   tl win ++ [next_w win]).

Definition vars_of (h : list Z) : vars :=
  mkVars (nth 0 h 0) (nth 1 h 0) (nth 2 h 0) (nth 3 h 0)
         (nth 4 h 0) (nth 5 h 0) (nth 6 h 0) (nth 7 h 0).

Definition compress (h : list Z) (block : list Z) : list Z :=
  let v0 := vars_of h in
  let v := fst (fold_left round K (v0, block)) in
  [ add32 (va v0) (va v); add32 (vb v0) (vb v); add32 (vc v0) (vc v); add32 (vd v0) (vd v);
    add32 (ve v0) (ve v); add32 (vf v0) (vf v); add32 (vg v0) (vg v); add32 (vh v0) (vh v) ].

Definition digest (msg : bytes) : bytes :=
  let ws := words_of (pad (map byte_to_Z msg)) in
  let h := fold_left compress (blocks (List.length ws) ws) H0 in
  map byte_of_Z (flat_map (be_bytes 4) h).

Definition block_size : nat := 64.

Definition xor_pad (c : Z) (k : bytes) : bytes :=
  map (fun b => byte_of_Z (Z.lxor (byte_to_Z b) c)) k.

Definition hmac (key msg : bytes) : bytes :=
  let k0 := if Nat.ltb block_size (List.length key) then digest key else key in
  let k := k0 ++ List.repeat zero (block_size - List.length k0) in
  digest (xor_pad 92 k ++ digest (xor_pad 54 k ++ msg)).

End SHA256.

(** ** Base64 as Node's [Buffer] implements it

    [Buffer.toString("base64")] writes the standard alphabet with [=]
    padding.  [Buffer.from(text, "base64")] never fails on a string: it
    goes through the UTF-16 code units of the text and looks only at the
    low byte of each; it accepts the standard and the URL-safe alphabet,
    skips every other character and stops at the first [=]; a trailing
    group of two or three characters yields one or two bytes, a single
    trailing character yields none. *)

Module Base64.

Definition alphabet : list ascii :=
  list_ascii_of_string "ABCDEFGHIJKLMNOPQRSTUVWXYZabcdefghijklmnopqrstuvwxyz0123456789+/".

Definition char_of_sextet (n : Z) : ascii := nth (Z.to_nat n) alphabet "A"%char.

Definition sextet_of_char (c : ascii) : option Z :=
  let n := byte_to_Z c in
  if (65 <=? n) && (n <=? 90) then Some (n - 65)
  else if (97 <=? n) && (n <=? 122) then Some (n - 71)
  else if (48 <=? n) && (n <=? 57) then Some (n + 4)
  else if (n =? 43) || (n =? 45) then Some 62
  else if (n =? 47) || (n =? 95) then Some 63
  else None.

Fixpoint pack (bs : bytes) : list Z :=
  match bs with
  | [] => []
  | [x] => let a := byte_to_Z x in [a / 4; (a mod 4) * 16]
  | [x; y] =>
      let a := byte_to_Z x in
      let b := byte_to_Z y in
      [a / 4; (a mod 4) * 16 + b / 16; (b mod 16) * 4]
  | x :: y :: z :: rest =>
      let a := byte_to_Z x in
      let b := byte_to_Z y in
      let c := byte_to_Z z in
      [a / 4; (a mod 4) * 16 + b / 16; (b mod 16) * 4 + c / 64; c mod 64] ++ pack rest
  end.

Definition padding (n : nat) : list ascii :=
  List.repeat "="%char ((3 - n mod 3) mod 3)%nat.

Definition encode (bs : bytes) : string :=
  string_of_list_ascii (map char_of_sextet (pack bs) ++ padding (List.length bs)).

(** [units s]: the low byte of each UTF-16 code unit of the text whose
    UTF-8 encoding is [s].  A character of two or three bytes is one unit,
    a character of four bytes is a surrogate pair; a byte that begins no
    character stands for U+FFFD. *)
Definition continuation (c : ascii) : Z := byte_to_Z c mod 64.

Fixpoint units (s : string) : string :=
  match s with
  | EmptyString => EmptyString
  | String c0 rest =>
      let b0 := byte_to_Z c0 in
      if b0 <? 128 then String c0 (units rest)
      else
        match rest with
        | String c1 rest1 =>
            if (192 <=? b0) && (b0 <? 224) then
              String (byte_of_Z ((b0 mod 4) * 64 + continuation c1)) (units rest1)
            else
              match rest1 with
              | String c2 rest2 =>
                  if (224 <=? b0) && (b0 <? 240) then
                    String (byte_of_Z ((continuation c1 mod 4) * 64 + continuation c2))
                      (units rest2)
                  else
                    match rest2 with
                    | String c3 rest3 =>
                        if (240 <=? b0) && (b0 <? 248) then
                          let point := (b0 mod 8) * 262144 + continuation c1 * 4096
                                       + continuation c2 * 64 + continuation c3 in
                          let offset := point - 65536 in
                          String (byte_of_Z (offset / 1024))
                            (String (byte_of_Z offset) (units rest3))
                        else String (byte_of_Z 253) (units rest)
                    | EmptyString => String (byte_of_Z 253) (units rest)
                    end
              | EmptyString => String (byte_of_Z 253) (units rest)
              end
        | EmptyString => String (byte_of_Z 253) EmptyString
        end
  end.

Fixpoint sextets (s : string) : list Z :=
  match s with
  | EmptyString => []
  | String c s' =>
      if Ascii.eqb c "="%char then []
      else match sextet_of_char c with
           | Some n => n :: sextets s'
           | None => sextets s'
           end
  end.

Fixpoint unpack (ss : list Z) : bytes :=
  match ss with
  | a :: b :: c :: d :: rest =>
      [byte_of_Z (a * 4 + b / 16); byte_of_Z ((b mod 16) * 16 + c / 4);
       byte_of_Z ((c mod 4) * 64 + d)] ++ unpack rest
  | [a; b; c] => [byte_of_Z (a * 4 + b / 16); byte_of_Z ((b mod 16) * 16 + c / 4)]
  | [a; b] => [byte_of_Z (a * 4 + b / 16)]
  | _ => []
  end.

Definition decode (s : string) : bytes := unpack (sextets (units s)).

(** A plain text: characters of the two alphabets and [=] only, so that
    nothing is skipped. *)
Fixpoint plain (s : string) : bool :=
  match s with
  | EmptyString => true
  | String c s' =>
      (Ascii.eqb c "="%char || match sextet_of_char c with Some _ => true | None => false end)
      && plain s'
  end.

End Base64.

(** ** ECMAScript primitives used by the handler *)

Module JS.

Local Open Scope string_scope.
Local Open Scope Z_scope.

(** [s.startsWith(p)] *)
Definition startsWith (s p : string) : bool := String.prefix p s.

(** [s.substring(n)]: the characters from index [n] on. *)
Fixpoint substring (n : nat) (s : string) : string :=
  match n, s with
  | O, _ => s
  | S n', String _ s' => substring n' s'
  | S _, EmptyString => EmptyString
  end.

(** [s.replace(pat, by)] for a string pattern: only the first occurrence
    is replaced ([by] holds no [$], so it is inserted as it is). *)
Fixpoint replace (pat by_ s : string) : string :=
  if String.prefix pat s then by_ ++ substring (String.length pat) s
  else match s with
       | EmptyString => EmptyString
       | String c s' => String c (replace pat by_ s')
       end.

(** [s.split(sep)] for a one-character separator: every occurrence
    splits, and the result always has at least one piece. *)
Fixpoint split (sep : ascii) (s : string) : list string :=
  match s with
  | EmptyString => [EmptyString]
  | String c s' =>
      if Ascii.eqb c sep then EmptyString :: split sep s'
      else match split sep s' with
           | piece :: pieces => String c piece :: pieces
           | [] => [String c EmptyString]
           end
  end.

(** [s.includes(c)] for a character. *)
Fixpoint includes (c : ascii) (s : string) : bool :=
  match s with
  | EmptyString => false
  | String d s' => Ascii.eqb d c || includes c s'
  end.

(** *** Numbers

    A finite number is kept exactly, as the decimal fraction [m / 10^k];
    every binary64 number is such a fraction.  [Number(text)] rounds the
    literal to the nearest binary64 number and the conversion to a string
    writes the shortest digits that read back as the number, as the
    language prescribes.  The sums, products and quotients of the handler
    are kept exact: within the range of a date they are what binary64
    arithmetic gives on the numbers compared. *)

Inductive number :=
| Fin (m : Z) (k : N)
| NaN
| Inf (negative : bool).

Definition of_Z (z : Z) : number := Fin z 0.

Definition pow10 (k : N) : Z := 10 ^ Z.of_N k.

Definition decimal (n : N) : string := NilEmpty.string_of_uint (N.to_uint n).

Definition digits_only (s : string) : option N :=
  match s with
  | EmptyString => None
  | _ => option_map N.of_uint (NilEmpty.uint_of_string s)
  end.

(** [x = y] on the values. *)
Definition same_value (x y : number) : bool :=
  match x, y with
  | Fin m k, Fin m' k' => m * pow10 k' =? m' * pow10 k
  | Inf a, Inf b => Bool.eqb a b
  | _, _ => false
  end.

(** **** Rounding to binary64 *)

(** [q * 2^e] as a decimal fraction. *)
Definition dyadic (q e : Z) : number :=
  if 0 <=? e then Fin (q * 2 ^ e) 0 else Fin (q * 5 ^ (- e)) (Z.to_N (- e)).

(** [nearest m k], for [0 < m]: the binary64 number nearest to [m / 10^k],
    a tie going to the even significand; past the largest finite number
    it is [Infinity].  The significand has 53 bits, fewer for a subnormal
    number, whose exponent stays at [-1074]. *)
Definition nearest (m : Z) (k : N) : number :=
  let den := pow10 k in
  let e0 := Z.log2 m - Z.log2 den - 52 in
  let q0 := if 0 <=? e0 then m / (den * 2 ^ e0) else (m * 2 ^ (- e0)) / den in
  let e := Z.max (if q0 <? 2 ^ 52 then e0 - 1 else e0) (-1074) in
  let num := if 0 <=? e then m else m * 2 ^ (- e) in
  let d := if 0 <=? e then den * 2 ^ e else den in
  let q := num / d in
  let r := num mod d in
  let q' := if 2 * r <? d then q
            else if d <? 2 * r then q + 1
            else q + q mod 2 in
  if (971 <? e) || ((e =? 971) && (2 ^ 53 <=? q')) then Inf false
  else dyadic q' e.

(** An integer up to [2^53] is a binary64 number as it stands. *)
Definition to_double (m : Z) (k : N) : number :=
  if m =? 0 then Fin 0 0
  else if (N.eqb k 0) && (m <=? 2 ^ 53) then Fin m 0
  else nearest m k.

(** **** Number to string ([Number::toString], radix 10) *)

Fixpoint strip_zeros (fuel : nat) (m : Z) (k : N) : Z * N :=
  match fuel with
  | O => (m, k)
  | S fuel' =>
      if (0 <? Z.of_N k) && (m mod 10 =? 0) then strip_zeros fuel' (m / 10) (N.pred k)
      else (m, k)
  end.

Fixpoint drop_trailing_zeros (ds : list ascii) : list ascii :=
  match ds with
  | [] => []
  | d :: ds' =>
      match drop_trailing_zeros ds' with
      | [] => if Ascii.eqb d "0"%char then [] else [d]
      | r => d :: r
      end
  end.

Definition zeros (n : Z) : string := string_of_list_ascii (List.repeat "0"%char (Z.to_nat n)).

Definition exponent_part (e : Z) : string :=
  "e" ++ (if e <? 0 then "-" else "+") ++ decimal (Z.to_N (Z.abs e)).

(** [format s n]: the digits [s] (no trailing zero) standing for
    [0.s * 10^n]. *)
Definition format (s : list ascii) (n : Z) : string :=
  let k := Z.of_nat (List.length s) in
  if (k <=? n) && (n <=? 21) then string_of_list_ascii s ++ zeros (n - k)
  else if (0 <? n) && (n <=? 21) then
    string_of_list_ascii (firstn (Z.to_nat n) s) ++ "." ++ string_of_list_ascii (skipn (Z.to_nat n) s)
  else if (-6 <? n) && (n <=? 0) then "0." ++ zeros (- n) ++ string_of_list_ascii s
  else match s with
       | [d] => String d (exponent_part (n - 1))
       | d :: ds => String d ("." ++ string_of_list_ascii ds) ++ exponent_part (n - 1)
       | [] => "0"
       end.

Definition digits_of (m : Z) : list ascii := list_ascii_of_string (decimal (Z.to_N m)).

(** [s * 10^p] as a number, and rounded. *)
Definition decimal_value (s p : Z) : number :=
  if 0 <=? p then Fin (s * 10 ^ p) 0 else Fin s (Z.to_N (- p)).

Definition reads_back (s p : Z) (x : number) : bool :=
  match decimal_value s p with
  | Fin m k => same_value (to_double m k) x
  | _ => false
  end.

(** [shortest fuel d m k n]: looking for [d], [d + 1], ... digits [s] with
    [s * 10^(n - d)] reading back as [x = m / 10^k], where
    [10^(n-1) <= x < 10^n]; of two candidates with the same number of
    digits the nearer to [x] is taken, the even one when they are equally
    near. *)
Fixpoint shortest (fuel : nat) (d : Z) (m : Z) (k : N) (n : Z) : option (Z * Z) :=
  match fuel with
  | O => None
  | S fuel' =>
      let p := n - d in
      let shift := Z.of_N k + p in
      let lo := if 0 <=? shift then m / 10 ^ shift else m * 10 ^ (- shift) in
      let below := if 0 <=? shift then m mod 10 ^ shift else 0 in
      let above := if 0 <=? shift then 10 ^ shift - below else 0 in
      let hi := lo + 1 in
      let lo_ok := reads_back lo p (Fin m k) in
      let hi_ok := reads_back hi p (Fin m k) in
      if lo_ok && hi_ok then
        if below <? above then Some (lo, p)
        else if above <? below then Some (hi, p)
        else if Z.even lo then Some (lo, p) else Some (hi, p)
      else if lo_ok then Some (lo, p)
      else if hi_ok then Some (hi, p)
      else shortest fuel' (d + 1) m k n
  end.

Definition to_string_pos (m : Z) (k : N) : string :=
  if (N.eqb k 0) && (m <? 2 ^ 53) then decimal (Z.to_N m)
  else
    let n := Z.of_nat (List.length (digits_of m)) - Z.of_N k in
    match shortest 17 1 m k n with
    | Some (s, p) =>
        format (drop_trailing_zeros (digits_of s)) (Z.of_nat (List.length (digits_of s)) + p)
    | None =>
        let (m', k') := strip_zeros (N.to_nat k) m k in
        format (drop_trailing_zeros (digits_of m'))
          (Z.of_nat (List.length (digits_of m')) - Z.of_N k')
    end.

Definition to_string (x : number) : string :=
  match x with
  | NaN => "NaN"
  | Inf false => "Infinity"
  | Inf true => "-Infinity"
  | Fin m k =>
      if m =? 0 then "0"
      else if m <? 0 then "-" ++ to_string_pos (- m) k
      else to_string_pos m k
  end.

(** **** String to number ([Number(text)], i.e. [StringToNumber]) *)

(** White space and line terminators, in UTF-8: the characters U+0009 to
    U+000D and U+0020, U+00A0, U+1680, U+2000 to U+200A, U+2028, U+2029,
    U+202F, U+205F, U+3000 and U+FEFF. [space_prefix s] is the number of
    bytes of the one [s] begins with, [0] when it begins with none. *)
Definition is_space (c : ascii) : bool :=
  let n := byte_to_Z c in ((9 <=? n) && (n <=? 13)) || (n =? 32).

Definition space2 (c0 c1 : ascii) : bool :=
  (byte_to_Z c0 =? 194) && (byte_to_Z c1 =? 160).

Definition space3 (c0 c1 c2 : ascii) : bool :=
  let b0 := byte_to_Z c0 in
  let b1 := byte_to_Z c1 in
  let b2 := byte_to_Z c2 in
  ((b0 =? 225) && (b1 =? 154) && (b2 =? 128))
  || ((b0 =? 226) && (b1 =? 128)
      && (((128 <=? b2) && (b2 <=? 138)) || (b2 =? 168) || (b2 =? 169) || (b2 =? 175)))
  || ((b0 =? 226) && (b1 =? 129) && (b2 =? 159))
  || ((b0 =? 227) && (b1 =? 128) && (b2 =? 128))
  || ((b0 =? 239) && (b1 =? 187) && (b2 =? 191)).

Definition space_prefix (s : string) : nat :=
  match s with
  | String c0 (String c1 (String c2 _)) =>
      if is_space c0 then 1%nat
      else if space2 c0 c1 then 2%nat
      else if space3 c0 c1 c2 then 3%nat
      else 0%nat
  | String c0 (String c1 EmptyString) =>
      if is_space c0 then 1%nat else if space2 c0 c1 then 2%nat else 0%nat
  | String c0 EmptyString => if is_space c0 then 1%nat else 0%nat
  | EmptyString => 0%nat
  end.

Fixpoint trim_start (fuel : nat) (s : string) : string :=
  match fuel with
  | O => s
  | S fuel' =>
      match space_prefix s with
      | O => s
      | n => trim_start fuel' (substring n s)
      end
  end.

(** The same from the end: [space_suffix r] looks at the reversed text. *)
Definition space_suffix (r : string) : nat :=
  match r with
  | String c0 (String c1 (String c2 _)) =>
      if is_space c0 then 1%nat
      else if space2 c1 c0 then 2%nat
      else if space3 c2 c1 c0 then 3%nat
      else 0%nat
  | String c0 (String c1 EmptyString) =>
      if is_space c0 then 1%nat else if space2 c1 c0 then 2%nat else 0%nat
  | String c0 EmptyString => if is_space c0 then 1%nat else 0%nat
  | EmptyString => 0%nat
  end.

Fixpoint trim_end (fuel : nat) (r : string) : string :=
  match fuel with
  | O => r
  | S fuel' =>
      match space_suffix r with
      | O => r
      | n => trim_end fuel' (substring n r)
      end
  end.

Definition rev_string (s : string) : string :=
  string_of_list_ascii (List.rev (list_ascii_of_string s)).

Definition trim (s : string) : string :=
  rev_string (trim_end (String.length s) (rev_string (trim_start (String.length s) s))).

Definition digit_value (radix : Z) (c : ascii) : option Z :=
  let n := byte_to_Z c in
  let v := if (48 <=? n) && (n <=? 57) then n - 48
           else if (97 <=? n) && (n <=? 102) then n - 87
           else if (65 <=? n) && (n <=? 70) then n - 55
           else radix in
  if v <? radix then Some v else None.

Fixpoint radix_value (radix : Z) (acc : Z) (s : string) : option Z :=
  match s with
  | EmptyString => Some acc
  | String c s' =>
      match digit_value radix c with
      | Some v => radix_value radix (acc * radix + v) s'
      | None => None
      end
  end.

Definition radix_literal (radix : Z) (s : string) : number :=
  match s with
  | EmptyString => NaN
  | _ => match radix_value radix 0 s with Some v => to_double v 0 | None => NaN end
  end.

(** [cut p s]: [s] up to the first character satisfying [p], and what
    follows that character when there is one. *)
Fixpoint cut (p : ascii -> bool) (s : string) : string * option string :=
  match s with
  | EmptyString => (EmptyString, None)
  | String c s' =>
      if p c then (EmptyString, Some s')
      else let (a, b) := cut p s' in (String c a, b)
  end.

Definition signed_digits (s : string) : option Z :=
  match s with
  | String "+" s' => option_map Z.of_N (digits_only s')
  | String "-" s' => option_map (fun n => - Z.of_N n) (digits_only s')
  | _ => option_map Z.of_N (digits_only s)
  end.

(** [m * 10^e / 10^k] rounded.  An exponent that puts the value beyond
    every finite number, or below half the smallest one, is answered
    without building the power. *)
Definition scale (m : Z) (k : N) (e : Z) : number :=
  if m =? 0 then Fin 0 0
  else if 330 <? e - Z.of_N k then Inf false
  else if e - Z.of_N k <? -360 - Z.log2 m then Fin 0 0
  else if 0 <=? e then to_double (m * 10 ^ e) k
  else to_double m (k + Z.to_N (- e)).

Definition unsigned_decimal (s : string) : number :=
  if String.eqb s "Infinity" then Inf false
  else
    let (mant, ex) := cut (fun c => Ascii.eqb c "e"%char || Ascii.eqb c "E"%char) s in
    let (int_part, frac) := cut (fun c => Ascii.eqb c "."%char) mant in
    let frac_part := match frac with Some f => f | None => EmptyString end in
    match int_part ++ frac_part with
    | EmptyString => NaN
    | ds =>
        match digits_only ds, (match ex with Some e => signed_digits e | None => Some 0 end) with
        | Some m, Some e => scale (Z.of_N m) (N.of_nat (String.length frac_part)) e
        | _, _ => NaN
        end
    end.

Definition negate (x : number) : number :=
  match x with
  | Fin m k => Fin (- m) k
  | NaN => NaN
  | Inf b => Inf (negb b)
  end.

Definition numeric_literal (s : string) : number :=
  match s with
  | String "0" (String "x" h) | String "0" (String "X" h) => radix_literal 16 h
  | String "0" (String "o" h) | String "0" (String "O" h) => radix_literal 8 h
  | String "0" (String "b" h) | String "0" (String "B" h) => radix_literal 2 h
  | String "+" u => unsigned_decimal u
  | String "-" u => negate (unsigned_decimal u)
  | _ => unsigned_decimal s
  end.

(** A text of decimal digits only is the integer it writes, rounded; that
    case is tried first, every other text is trimmed and read by the
    grammar of numeric literals (the empty text is [0], what is no
    literal is [NaN]). *)
Definition Number (s : string) : number :=
  match digits_only s with
  | Some n => to_double (Z.of_N n) 0
  | None =>
      match trim s with
      | EmptyString => Fin 0 0
      | t => numeric_literal t
      end
  end.

(** A text of ASCII letters, at least one: [NaN] and [Infinity] are such
    texts, a numeric literal of finite value is not. *)
Definition letter (c : ascii) : bool :=
  let n := byte_to_Z c in
  ((65 <=? n) && (n <=? 90)) || ((97 <=? n) && (n <=? 122)).

Fixpoint all_letters (s : string) : bool :=
  match s with
  | EmptyString => true
  | String c s' => letter c && all_letters s'
  end.

Definition letters (s : string) : bool :=
  match s with
  | EmptyString => false
  | _ => all_letters s
  end.

(** **** Arithmetic and comparison *)

Definition add (x y : number) : number :=
  match x, y with
  | NaN, _ | _, NaN => NaN
  | Inf a, Inf b => if Bool.eqb a b then Inf a else NaN
  | Inf a, _ | _, Inf a => Inf a
  | Fin m k, Fin m' k' => Fin (m * pow10 k' + m' * pow10 k) (k + k')
  end.

(** [x / 1000] and [x * 1000] *)
Definition div1000 (x : number) : number :=
  match x with Fin m k => Fin m (k + 3) | _ => x end.

Definition mul1000 (x : number) : number :=
  match x with Fin m k => Fin (m * 1000) k | _ => x end.

(** [Math.floor(x)] *)
Definition floor (x : number) : number :=
  match x with Fin m k => Fin (m / pow10 k) 0 | _ => x end.

(** [x > y]; false as soon as one side is [NaN]. *)
Definition gt (x y : number) : bool :=
  match x, y with
  | NaN, _ | _, NaN => false
  | Inf a, Inf b => negb a && b
  | Inf a, Fin _ _ => negb a
  | Fin _ _, Inf b => b
  | Fin m k, Fin m' k' => m' * pow10 k <? m * pow10 k'
  end.

(** The time value of [new Date(x)] ([TimeClip]): [None] is the invalid
    date.  [Date.now()] reads an integer within the same range. *)
Definition MAX_TIME : Z := 8640000000000000.

Definition time_value (x : number) : option Z :=
  match x with
  | Fin m k =>
      let t := Z.quot m (pow10 k) in
      if Z.abs t <=? MAX_TIME then Some t else None
  | _ => None
  end.

End JS.

(** ** The platform objects the handler touches *)

Module Web.

Local Open Scope string_scope.
Local Open Scope Z_scope.

(** *** URL and URLSearchParams

    A parsed URL is its [pathname] (as the platform reports it, already
    percent-encoded) and the decoded name/value pairs of its query. *)

Definition URLSearchParams := list (string * string).

Record URL := mkURL { pathname : string; searchParams : URLSearchParams }.

Fixpoint get (ps : URLSearchParams) (name : string) : option string :=
  match ps with
  | [] => None
  | (n, v) :: ps' => if String.eqb n name then Some v else get ps' name
  end.

Definition has (ps : URLSearchParams) (name : string) : bool :=
  match get ps name with Some _ => true | None => false end.

Definition remove (ps : URLSearchParams) (name : string) : URLSearchParams :=
  List.filter (fun p => negb (String.eqb (fst p) name)) ps.

(** [set]: the first pair called [name] takes the value, the other pairs
    called [name] go; without such a pair one is appended. *)
Fixpoint set (ps : URLSearchParams) (name value : string) : URLSearchParams :=
  match ps with
  | [] => [(name, value)]
  | (n, v) :: ps' =>
      if String.eqb n name then (n, value) :: remove ps' name
      else (n, v) :: set ps' name value
  end.

(** The [application/x-www-form-urlencoded] serializer behind
    [url.search]. *)
Definition HEX : list ascii := list_ascii_of_string "0123456789ABCDEF".

Definition unreserved (c : ascii) : bool :=
  let n := byte_to_Z c in
  ((48 <=? n) && (n <=? 57)) || ((65 <=? n) && (n <=? 90)) || ((97 <=? n) && (n <=? 122))
  || (n =? 42) || (n =? 45) || (n =? 46) || (n =? 95).

Fixpoint urlencode (s : string) : string :=
  match s with
  | EmptyString => EmptyString
  | String c s' =>
      if unreserved c then String c (urlencode s')
      else if Ascii.eqb c " "%char then String "+"%char (urlencode s')
      else
        let n := byte_to_Z c in
        String "%"%char
          (String (nth (Z.to_nat (n / 16)) HEX "0"%char)
             (String (nth (Z.to_nat (n mod 16)) HEX "0"%char) (urlencode s')))
  end.

Fixpoint serialize (ps : URLSearchParams) : string :=
  match ps with
  | [] => EmptyString
  | [(n, v)] => urlencode n ++ "=" ++ urlencode v
  | (n, v) :: ps' => urlencode n ++ "=" ++ urlencode v ++ "&" ++ serialize ps'
  end.

Definition search (u : URL) : string :=
  match searchParams u with
  | [] => EmptyString
  | ps => "?" ++ serialize ps
  end.

(** *** Responses *)

Inductive Body :=
| Text (s : string)
| Stream (content : bytes)
| UrlExpiredAt (date : option Z).
(** [UrlExpiredAt d] is the text [`URL expired at ${new Date(..)}`] for the
    date of time value [d]; how a date prints depends on the host. *)

Record Response := mkResponse {
  status : Z;
  body : Body;
  headers : list (string * string)
}.

(** *** The bucket *)

Record R2Object := mkR2Object {
  object_body : bytes;
  contentType : option string   (* [httpMetadata?.contentType] *)
}.

Definition R2Bucket := string -> option R2Object.

(** *** Faults and the log of bucket reads

    A computation of the handler yields the keys it asked the bucket for,
    in order, and either a value or a thrown exception. *)

Inductive Exn := TypeError | DataError.

Inductive outcome (A : Type) :=
| Return (a : A)
| Throw (e : Exn).
Arguments Return {A} a.
Arguments Throw {A} e.

Definition M (A : Type) : Type := list string * outcome A.

Definition ret {A} (a : A) : M A := ([], Return a).

Definition lift {A} (o : outcome A) : M A := ([], o).

Definition bind {A B} (m : M A) (f : A -> M B) : M B :=
  match m with
  | (l, Return a) => let (l', r) := f a in ((l ++ l')%list, r)
  | (l, Throw e) => (l, Throw e)
  end.

Definition bucket_get (b : R2Bucket) (key : string) : M (option R2Object) :=
  ([key], Return (b key)).

(** *** crypto.subtle and Buffer *)

Definition CryptoKey := bytes.

(** [importKey("raw", keyData, { name: "HMAC", hash: "SHA-256" }, ..)]:
    a key of length zero is refused with a [DataError]. *)
Definition importKey (keyData : bytes) : outcome CryptoKey :=
  match keyData with
  | [] => Throw DataError
  | _ => Return keyData
  end.

Definition subtle_sign (key : CryptoKey) (data : bytes) : bytes := SHA256.hmac key data.

Definition subtle_verify (key : CryptoKey) (signature data : bytes) : bool :=
  bytes_eqb (SHA256.hmac key data) signature.

(** [Buffer.from(x, "base64")]: [undefined] in place of the string is a
    [TypeError]. *)
Definition Buffer_from_base64 (x : option string) : outcome bytes :=
  match x with
  | Some s => Return (Base64.decode s)
  | None => Throw TypeError
  end.

End Web.

Notation "x <- m ;; k" := (Web.bind m (fun x => k))
  (at level 61, m at next level, right associativity).

(** ** The worker *)

Module Worker.

Import Web.
Local Open Scope string_scope.
Local Open Scope Z_scope.

Definition EXPIRY : Z := 600.

Record Env := mkEnv {
  SECRET_DATA : option string;
  THE_R2BUCKET : R2Bucket
}.

Record Request := mkRequest { url : URL }.

(** Lines 61 and 87: the template [`${url.pathname}${timestamp}`]. *)
Definition dataToAuthenticate (pathname : string) (timestamp : JS.number) : string :=
  pathname ++ JS.to_string timestamp.

(** Lines 56-73: the token put into [verify] for [pathname] when the clock
    reads [now] milliseconds. *)
Definition issue (key : CryptoKey) (pathname : string) (now : Z) : string :=
  let timestamp := JS.floor (JS.div1000 (JS.of_Z now)) in                        (* 56 *)
  let mac := subtle_sign key (encode (dataToAuthenticate pathname timestamp)) in  (* 61-67 *)
  let base64Mac := Base64.encode mac in                                          (* 71 *)
  JS.to_string timestamp ++ "-" ++ base64Mac.                                    (* 73 *)

(** Lines 79-113: the checks a protected request goes through, in the
    order of the source.  [param] is [url.searchParams.get("verify")],
    [None] when the parameter is absent.  The source answers each
    rejection on the spot with a 403 response; here the rejection is
    returned and [fetch] below turns it into that response. *)
Inductive reason :=
| MissingToken                    (* line 80, "Authentication required" *)
| MacMismatch                     (* line 104, "Invalid MAC" *)
| Expired (date : option Z).      (* line 109, "URL expired at ..." *)

Inductive verdict := Ok | Err (r : reason).

Definition verify (key : CryptoKey) (pathname : string) (param : option string) (now : Z)
  : outcome verdict :=
  match param with
  | None => Return (Err MissingToken)                                  (* 79-81 *)
  | Some raw =>
      let parts := JS.split "-" raw in                                 (* 83 *)
      let timestamp := nth 0 parts EmptyString in
      let hmac := nth_error parts 1 in
      let assertedTimestamp := JS.Number timestamp in                  (* 85 *)
      match Buffer_from_base64 hmac with                               (* 89 *)
      | Throw e => Throw e
      | Return receivedMac =>
          let verified :=                                              (* 96-101 *)
            subtle_verify key receivedMac
              (encode (dataToAuthenticate pathname assertedTimestamp)) in
          if negb verified then Return (Err MacMismatch)               (* 103-105 *)
          else if JS.gt (JS.div1000 (JS.of_Z now))                     (* 108 *)
                    (JS.add assertedTimestamp (JS.of_Z EXPIRY))
          then Return (Err (Expired
                 (JS.time_value (JS.mul1000 (JS.add assertedTimestamp (JS.of_Z EXPIRY))))))
          else Return Ok
      end
  end.

(** [object.httpMetadata?.contentType || "application/octet-stream"] *)
Definition content_type_of (o : R2Object) : string :=
  match contentType o with
  | Some EmptyString | None => "application/octet-stream"
  | Some t => t
  end.

(** Lines 17-19: [env.SECRET_DATA ?? "my secret symmetric key"], encoded. *)
Definition secretKeyData (env : Env) : bytes :=
  encode (match SECRET_DATA env with Some s => s | None => "my secret symmetric key" end).

(** The handler.  [now] is what [Date.now()] reads during the request.
    Assigning to [url.pathname] is taken to store the string as it is: the
    path it is given comes from a parsed URL and is already in the form
    the URL parser produces. *)
Definition fetch (request : Request) (env : Env) (now : Z) : M Response :=
  key <- lift (importKey (secretKeyData env)) ;;                        (* 22-28 *)
  let url := url request in                                             (* 30 *)
  let path := pathname url in                                           (* 31 *)
  if JS.startsWith path "/assets/" then                                 (* 34 *)
    let objectKey := JS.substring 1 path in                             (* 35 *)
    object <- bucket_get (THE_R2BUCKET env) objectKey ;;                (* 36 *)
    match object with
    | None => ret (mkResponse 404 (Text "Object Not Found") [])         (* 38-40 *)
    | Some o =>
        ret (mkResponse 200 (Stream (object_body o))                    (* 42-47 *)
               [("Content-Type", content_type_of o);
                ("Cache-Control", "public, max-age=86400")])
    end
  else if JS.startsWith (pathname url) "/generate/" then                (* 53 *)
    let url := mkURL (JS.replace "/generate/" "/" (pathname url)) (searchParams url) in  (* 54 *)
    let token := issue key (pathname url) now in                        (* 56-73 *)
    let url := mkURL (pathname url) (set (searchParams url) "verify" token) in           (* 73 *)
    ret (mkResponse 200 (Text (pathname url ++ search url)) [])         (* 75 *)
  else if JS.startsWith path "/uploads/" || JS.startsWith path "/invoices/" then         (* 77 *)
    v <- lift (verify key (pathname url) (get (searchParams url) "verify") now) ;;       (* 79-113 *)
    match v with
    | Err MissingToken => ret (mkResponse 403 (Text "Authentication required") [])
    | Err MacMismatch => ret (mkResponse 403 (Text "Invalid MAC") [])
    | Err (Expired date) => ret (mkResponse 403 (UrlExpiredAt date) [])
    | Ok =>
        let objectKey := JS.substring 1 path in                         (* 116 *)
        object <- bucket_get (THE_R2BUCKET env) objectKey ;;            (* 117 *)
        match object with
        | None => ret (mkResponse 404 (Text "Object Not Found") [])     (* 119-121 *)
        | Some o =>
            ret (mkResponse 200 (Stream (object_body o))                (* 123-128 *)
                   [("Content-Type", content_type_of o);
                    ("Cache-Control", "private, no-store")])
        end
    end
  else ret (mkResponse 403 (Text "Access denied") []).                  (* 132 *)

End Worker.

(** ** The specification's vocabulary

    The definitions of this module follow the wording of the
    specification, not the source; the properties below compare them with
    the handler. *)

Module Spec.

Import Web Worker.
Local Open Scope string_scope.
Local Open Scope Z_scope.

Inductive Policy := Public | Generate | Protected | Denied.

(** PathClassifier: the four rules, checked in order. *)
Definition classify (path : string) : Policy :=
  if String.prefix "/assets/" path then Public
  else if String.prefix "/generate/" path then Generate
  else if String.prefix "/uploads/" path || String.prefix "/invoices/" path then Protected
  else Denied.

(** A token [{ timestamp, mac }] is written ["<timestamp>-<base64(mac)>"]. *)
Definition serialize (timestamp : N) (mac : bytes) : string :=
  JS.decimal timestamp ++ "-" ++ Base64.encode mac.

Definition CanonicalMessage (path : string) (timestamp : N) : string :=
  path ++ JS.decimal timestamp.

(** The validity invariant of the data model, with [now] in milliseconds
    and the timestamp in seconds. *)
Definition valid (key : CryptoKey) (path : string) (timestamp : N) (mac : bytes) (now : Z)
  : Prop :=
  (Z.of_N timestamp * 1000 <= now <= (Z.of_N timestamp + EXPIRY) * 1000)
  /\ mac = SHA256.hmac key (encode (CanonicalMessage path timestamp)).

(** TokenCodec: split on the first [-]; the timestamp is a non-negative
    integer, the mac is standard base64 for a tag of 32 bytes. *)
Definition standard_char (c : ascii) : bool := existsb (Ascii.eqb c) Base64.alphabet.

Fixpoint standard_body (s : string) : bool :=
  match s with
  | EmptyString => true
  | String c s' =>
      if standard_char c then standard_body s'
      else String.eqb s "=" || String.eqb s "=="
  end.

Definition standard_base64 (s : string) : bool :=
  standard_body s && (String.length s mod 4 =? 0)%nat.

Definition MAC_LENGTH : nat := 32.

Definition parse (raw : string) : option (N * bytes) :=
  match JS.cut (fun c => Ascii.eqb c "-"%char) raw with
  | (ts, Some mac) =>
      match JS.digits_only ts with
      | Some timestamp =>
          if standard_base64 mac && (List.length (Base64.decode mac) =? MAC_LENGTH)%nat
          then Some (timestamp, Base64.decode mac)
          else None
      | None => None
      end
  | (_, None) => None
  end.

End Spec.

(** ** Counting byte strings

    Every byte, every byte string of a given length, and a family of
    protected paths, one for each natural number: what is needed to count
    MACs against paths. *)

Module Counting.




End Counting.

(** ** The scenario of the specification

    Secret ["test-secret"], path [/uploads/file.txt], timestamp
    [1700000000]; the bucket holds that one object. *)

Definition test_key : Web.CryptoKey := encode "test-secret".
Definition test_path : string := "/uploads/file.txt"%string.
Definition test_tag : bytes :=
  SHA256.hmac test_key (encode (Spec.CanonicalMessage test_path 1700000000)).
Definition test_bucket : Web.R2Bucket :=
  fun k => if String.eqb k "uploads/file.txt"
           then Some (Web.mkR2Object (encode "hello") None)
           else None.
Definition test_env : Worker.Env := Worker.mkEnv (Some "test-secret"%string) test_bucket.

(** * Properties *)

(** ** Bytes *)

Lemma byte_to_Z_range (b : byte) : 0 <= byte_to_Z b < 256.
Proof.
  unfold byte_to_Z. pose proof (N_ascii_bounded b). lia.
Qed.

Lemma byte_of_to_Z (b : byte) : byte_of_Z (byte_to_Z b) = b.
Proof.
  unfold byte_of_Z. pose proof (byte_to_Z_range b) as Hb.
  rewrite Z.mod_small by exact Hb.
  unfold byte_to_Z. rewrite N2Z.id. apply ascii_N_embedding.
Qed.

Lemma bytes_eqb_eq (a b : bytes) : bytes_eqb a b = true <-> a = b.
Proof.
  revert b. induction a as [|x a IH]; intros [|y b]; simpl; split; intro H;
    try reflexivity; try discriminate.
  - apply andb_true_iff in H. destruct H as [Hx Hr].
    apply Ascii.eqb_eq in Hx. apply IH in Hr. now subst.
  - injection H as -> ->. rewrite Ascii.eqb_refl. simpl. now apply IH.
Qed.

Lemma bytes_eqb_refl (a : bytes) : bytes_eqb a a = true.
Proof. now apply bytes_eqb_eq. Qed.

(** ** Base64: decoding undoes encoding *)

Section Triples.

Variable A : Type.
Variable P : list A -> Prop.
Hypothesis P0 : P [].
Hypothesis P1 : forall x, P [x].
Hypothesis P2 : forall x y, P [x; y].
Hypothesis P3 : forall x y z l, P l -> P (x :: y :: z :: l).

Lemma list_ind3 : forall l, P l.
Proof.
  fix IH 1. intros [|x [|y [|z l]]].
  - exact P0.
  - apply P1.
  - apply P2.
  - apply P3. apply IH.
Qed.

End Triples.

Module Base64Facts.

Import Base64.

Definition sextet (v : Z) : Prop := 0 <= v < 64.

Lemma sextet_cases (Q : Z -> Prop) :
  (forall n : nat, (n < 64)%nat -> Q (Z.of_nat n)) -> forall v, sextet v -> Q v.
Proof.
  intros H v Hv. rewrite <- (Z2Nat.id v) by (unfold sextet in Hv; lia).
  apply H. unfold sextet in Hv. lia.
Qed.

Lemma char_of_sextet_inv v :
  sextet v -> sextet_of_char (char_of_sextet v) = Some v.
Proof.
  revert v. apply sextet_cases. intros n Hn.
  do 64 (destruct n as [|n]; [reflexivity|]). lia.
Qed.

Lemma char_of_sextet_not_pad v :
  sextet v -> Ascii.eqb (char_of_sextet v) "="%char = false.
Proof.
  revert v. apply sextet_cases. intros n Hn.
  do 64 (destruct n as [|n]; [reflexivity|]). lia.
Qed.

Lemma char_of_sextet_not_hyphen v :
  sextet v -> Ascii.eqb (char_of_sextet v) "-"%char = false.
Proof.
  revert v. apply sextet_cases. intros n Hn.
  do 64 (destruct n as [|n]; [reflexivity|]). lia.
Qed.

Lemma pack_sextets bs : Forall sextet (pack bs).
Proof.
  induction bs as [ | x | x y | x y z l IH ] using list_ind3; simpl.
  - constructor.
  - pose proof (byte_to_Z_range x).
    repeat constructor; unfold sextet; Z.div_mod_to_equations; lia.
  - pose proof (byte_to_Z_range x). pose proof (byte_to_Z_range y).
    repeat constructor; unfold sextet; Z.div_mod_to_equations; lia.
  - pose proof (byte_to_Z_range x). pose proof (byte_to_Z_range y).
    pose proof (byte_to_Z_range z).
    repeat (constructor; [unfold sextet; Z.div_mod_to_equations; lia|]).
    exact IH.
Qed.

Lemma byte_of_Z_eq (b : byte) (v : Z) : v = byte_to_Z b -> byte_of_Z v = b.
Proof. intros ->. apply byte_of_to_Z. Qed.

Lemma unpack_pack bs : unpack (pack bs) = bs.
Proof.
  induction bs as [ | x | x y | x y z l IH ] using list_ind3.
  - reflexivity.
  - cbn [pack unpack]. f_equal. apply byte_of_Z_eq.
    pose proof (byte_to_Z_range x). Z.div_mod_to_equations; lia.
  - cbn [pack unpack]. pose proof (byte_to_Z_range x). pose proof (byte_to_Z_range y).
    f_equal; [|f_equal]; apply byte_of_Z_eq; Z.div_mod_to_equations; lia.
  - cbn [pack unpack app]. rewrite IH.
    pose proof (byte_to_Z_range x). pose proof (byte_to_Z_range y).
    pose proof (byte_to_Z_range z).
    f_equal; [|f_equal; [|f_equal]]; apply byte_of_Z_eq; Z.div_mod_to_equations; lia.
Qed.

Lemma sextets_pad n : sextets (string_of_list_ascii (List.repeat "="%char n)) = [].
Proof. destruct n; reflexivity. Qed.

Lemma sextets_chars vs n :
  Forall sextet vs ->
  sextets (string_of_list_ascii (map char_of_sextet vs ++ List.repeat "="%char n)) = vs.
Proof.
  induction 1 as [|v vs Hv _ IH].
  - apply sextets_pad.
  - cbn [map app string_of_list_ascii sextets].
    rewrite (char_of_sextet_not_pad v Hv), (char_of_sextet_inv v Hv), IH. reflexivity.
Qed.

Lemma char_of_sextet_low v : sextet v -> (byte_to_Z (char_of_sextet v) <? 128) = true.
Proof.
  revert v. apply sextet_cases. intros n Hn.
  do 64 (destruct n as [|n]; [reflexivity|]). lia.
Qed.

Lemma units_low l :
  Forall (fun c => (byte_to_Z c <? 128) = true) l ->
  units (string_of_list_ascii l) = string_of_list_ascii l.
Proof.
  induction 1 as [|c l Hc _ IH]; [reflexivity|].
  cbn [string_of_list_ascii units]. now rewrite Hc, IH.
Qed.

Lemma units_encode bs : units (encode bs) = encode bs.
Proof.
  unfold encode. apply units_low. apply Forall_app. split.
  - apply Forall_map. eapply Forall_impl; [|apply pack_sextets].
    intros v Hv. now apply char_of_sextet_low.
  - unfold padding. apply Forall_forall. intros c Hc.
    apply repeat_spec in Hc. now subst.
Qed.

Theorem decode_encode bs : decode (encode bs) = bs.
Proof.
  unfold decode. rewrite units_encode. unfold encode, padding.
  rewrite sextets_chars by apply pack_sextets. apply unpack_pack.
Qed.

End Base64Facts.

(** ** Strings and numbers *)

Module JSFacts.

Import JS.
Local Open Scope string_scope.

Lemma includes_app c a b : includes c (a ++ b) = includes c a || includes c b.
Proof.
  induction a as [|d a IH]; simpl; [reflexivity|].
  rewrite IH. apply orb_assoc.
Qed.

Lemma includes_chars c l :
  Forall (fun d => Ascii.eqb d c = false) l -> includes c (string_of_list_ascii l) = false.
Proof.
  induction 1 as [|d l Hd _ IH]; simpl; [reflexivity|]. now rewrite Hd, IH.
Qed.

Lemma split_whole sep s : includes sep s = false -> split sep s = [s].
Proof.
  induction s as [|c s IH]; simpl; [reflexivity|].
  intros H. apply orb_false_iff in H. destruct H as [Hc Hs].
  rewrite Hc, (IH Hs). reflexivity.
Qed.

Lemma split_app sep a b :
  includes sep a = false -> split sep (a ++ String sep b) = a :: split sep b.
Proof.
  induction a as [|c a IH]; simpl.
  - intros _. now rewrite Ascii.eqb_refl.
  - intros H. apply orb_false_iff in H. destruct H as [Hc Ha].
    rewrite Hc, (IH Ha). reflexivity.
Qed.

Lemma split_pieces sep s : Forall (fun p => includes sep p = false) (split sep s).
Proof.
  induction s as [|c s IH]; simpl.
  - repeat constructor.
  - destruct (Ascii.eqb c sep) eqn:Hc.
    + constructor; [reflexivity|exact IH].
    + destruct (split sep s) as [|p ps]; [repeat constructor; simpl; now rewrite Hc|].
      inversion IH as [|? ? Hp Hps]; subst.
      constructor; [simpl; now rewrite Hc, Hp|exact Hps].
Qed.

Lemma split_two sep a b :
  includes sep a = false -> includes sep b = false ->
  split sep (a ++ String sep b) = [a; b].
Proof.
  intros Ha Hb. now rewrite (split_app sep a b Ha), (split_whole sep b Hb).
Qed.

(** *** Decimal numerals *)

Lemma string_of_uint_plain d : includes "-" (NilEmpty.string_of_uint d) = false.
Proof. induction d; simpl; auto. Qed.

Lemma decimal_plain n : includes "-" (decimal n) = false.
Proof. apply string_of_uint_plain. Qed.

Lemma to_uint_nonnil n : N.to_uint n <> Decimal.Nil.
Proof.
  destruct n as [|p]; simpl; [discriminate|].
  apply DecimalPos.Unsigned.to_uint_nonnil.
Qed.

Lemma digits_only_decimal n : digits_only (decimal n) = Some n.
Proof.
  unfold digits_only, decimal.
  pose proof (to_uint_nonnil n) as Hn.
  rewrite NilEmpty.usu. simpl. rewrite DecimalN.Unsigned.of_to.
  destruct (N.to_uint n); try reflexivity. now elim Hn.
Qed.

Lemma to_double_integer n :
  (Z.of_N n < 2 ^ 53)%Z -> to_double (Z.of_N n) 0 = Fin (Z.of_N n) 0.
Proof.
  intros Hn. unfold to_double.
  destruct (Z.eqb_spec (Z.of_N n) 0) as [->|H0]; [reflexivity|].
  assert ((Z.of_N n <=? 2 ^ 53)%Z = true) as -> by lia. reflexivity.
Qed.

Theorem Number_decimal n :
  (Z.of_N n < 2 ^ 53)%Z -> Number (decimal n) = Fin (Z.of_N n) 0.
Proof.
  intros Hn. unfold Number. rewrite digits_only_decimal. now apply to_double_integer.
Qed.

Theorem to_string_decimal n :
  (Z.of_N n < 2 ^ 53)%Z -> to_string (Fin (Z.of_N n) 0) = decimal n.
Proof.
  intros Hn. unfold to_string.
  destruct (Z.eqb_spec (Z.of_N n) 0) as [H0|H0].
  - assert (n = 0%N) as -> by lia. reflexivity.
  - assert ((Z.of_N n <? 0)%Z = false) as -> by lia.
    unfold to_string_pos.
    assert ((Z.of_N n <? 2 ^ 53)%Z = true) as -> by lia.
    simpl. now rewrite N2Z.id.
Qed.

End JSFacts.

(** ** Tokens through the verifier *)

Module TokenFacts.

Import Web Worker JSFacts.
Local Open Scope string_scope.
Local Open Scope Z_scope.




Lemma encode_plain bs : JS.includes "-" (Base64.encode bs) = false.
Proof.
  unfold Base64.encode. apply includes_chars. apply Forall_app. split.
  - apply Forall_map. eapply Forall_impl; [|apply Base64Facts.pack_sextets].
    intros v Hv. now apply Base64Facts.char_of_sextet_not_hyphen.
  - unfold Base64.padding. apply Forall_forall. intros c Hc.
    apply repeat_spec in Hc. now subst.
Qed.

Lemma split_serialize ts mac :
  JS.split "-" (Spec.serialize ts mac) = [JS.decimal ts; Base64.encode mac].
Proof.
  unfold Spec.serialize. apply split_two; [apply decimal_plain|apply encode_plain].
Qed.

Lemma gt_expiry now ts :
  JS.gt (JS.div1000 (JS.of_Z now)) (JS.add (JS.Fin ts 0) (JS.of_Z EXPIRY))
  = ((ts + EXPIRY) * 1000 <? now).
Proof.
  unfold JS.gt, JS.div1000, JS.add, JS.of_Z, EXPIRY. simpl N.add.
  change (JS.pow10 0) with 1. change (JS.pow10 3) with 1000.
  destruct (Z.ltb_spec ((ts * 1 + 600 * 1) * 1000) (now * 1));
    destruct (Z.ltb_spec ((ts + 600) * 1000) now); try reflexivity; lia.
Qed.

(** What the verifier does with a well-formed token. *)
Lemma verify_serialized key p ts mac now :
  Z.of_N ts < 2 ^ 53 ->
  verify key p (Some (Spec.serialize ts mac)) now =
    if bytes_eqb (SHA256.hmac key (encode (Spec.CanonicalMessage p ts))) mac
    then if (Z.of_N ts + EXPIRY) * 1000 <? now
         then Return (Err (Expired
                (JS.time_value (JS.mul1000 (JS.add (JS.Fin (Z.of_N ts) 0) (JS.of_Z EXPIRY))))))
         else Return Ok
    else Return (Err MacMismatch).
Proof.
  intros Hts. unfold verify. rewrite split_serialize.
  cbn [nth nth_error Buffer_from_base64].
  rewrite (Number_decimal ts Hts), Base64Facts.decode_encode.
  unfold dataToAuthenticate, subtle_verify. rewrite (to_string_decimal ts Hts).
  fold (Spec.CanonicalMessage p ts). rewrite gt_expiry.
  destruct (bytes_eqb _ mac); reflexivity.
Qed.

Lemma timestamp_of_clock now :
  JS.floor (JS.div1000 (JS.of_Z now)) = JS.Fin (now / 1000) 0.
Proof. reflexivity. Qed.

(** What the issuer writes when the clock is sane. *)
Lemma issue_serialize key p now :
  0 <= now -> now / 1000 < 2 ^ 53 ->
  issue key p now =
    Spec.serialize (Z.to_N (now / 1000))
      (SHA256.hmac key (encode (Spec.CanonicalMessage p (Z.to_N (now / 1000))))).
Proof.
  intros H0 H1. unfold issue. rewrite timestamp_of_clock.
  assert (0 <= now / 1000) as Hq by (apply Z.div_pos; lia).
  unfold dataToAuthenticate, subtle_sign, Spec.serialize, Spec.CanonicalMessage.
  rewrite <- (Z2N.id (now / 1000)) at 1 2 by exact Hq.
  rewrite to_string_decimal by (rewrite Z2N.id; assumption). reflexivity.
Qed.

Lemma clock_bound now : 0 <= now <= JS.MAX_TIME -> 0 <= now / 1000 < 2 ^ 53.
Proof.
  unfold JS.MAX_TIME. intros H. split; [apply Z.div_pos; lia|].
  apply Z.div_lt_upper_bound; lia.
Qed.

End TokenFacts.

(** ** The handler, branch by branch *)

Module FetchFacts.

Import Web Worker.
Local Open Scope string_scope.
Local Open Scope Z_scope.

Lemma bind_lift_return {A B} (a : A) (f : A -> M B) : bind (lift (Return a)) f = f a.
Proof. unfold bind, lift. now destruct (f a). Qed.

Lemma bind_lift_throw {A B} (e : Exn) (f : A -> M B) : bind (lift (Throw e)) f = ([], Throw e).
Proof. reflexivity. Qed.

Lemma bind_bucket_get {B} (b : R2Bucket) (k : string) (f : option R2Object -> M B) :
  bind (bucket_get b k) f = (k :: fst (f (b k)), snd (f (b k))).
Proof. unfold bind, bucket_get. now destruct (f (b k)). Qed.

Lemma importKey_secret env :
  SECRET_DATA env <> Some "" -> importKey (secretKeyData env) = Return (secretKeyData env).
Proof.
  unfold secretKeyData. intros H.
  destruct (SECRET_DATA env) as [[|c s]|]; [now elim H|reflexivity|reflexivity].
Qed.

Lemma prefix_slash rest path :
  String.prefix (String "/" rest) path = true ->
  path = String "/" (JS.substring 1 path) /\ String.prefix rest (JS.substring 1 path) = true.
Proof.
  destruct path as [|c path]; cbn [String.prefix JS.substring]; [discriminate|].
  destruct (ascii_dec "/" c) as [<-|]; [auto|discriminate].
Qed.

(** The verifier on a value without any [-]: the second piece of the split
    is [undefined], and decoding it throws. *)
Lemma verify_without_separator key p raw now :
  JS.includes "-" raw = false -> verify key p (Some raw) now = Throw TypeError.
Proof.
  intros H. unfold verify. now rewrite (JSFacts.split_whole _ _ H).
Qed.

(** The verifier on a value with a [-]: the first two pieces decide. *)
Lemma verify_pieces key p raw now ts mac rest :
  JS.split "-" raw = ts :: mac :: rest ->
  verify key p (Some raw) now =
    if subtle_verify key (Base64.decode mac) (encode (dataToAuthenticate p (JS.Number ts)))
    then if JS.gt (JS.div1000 (JS.of_Z now)) (JS.add (JS.Number ts) (JS.of_Z EXPIRY))
         then Return (Err (Expired
                (JS.time_value (JS.mul1000 (JS.add (JS.Number ts) (JS.of_Z EXPIRY))))))
         else Return Ok
    else Return (Err MacMismatch).
Proof.
  intros H. unfold verify. rewrite H. cbn [nth nth_error Buffer_from_base64].
  now destruct (subtle_verify _ _ _).
Qed.

(** The four branches of the handler, once the key is imported. *)
Lemma fetch_assets request env now :
  SECRET_DATA env <> Some "" ->
  String.prefix "/assets/" (pathname (url request)) = true ->
  fetch request env now =
    ([JS.substring 1 (pathname (url request))],
     Return
       match THE_R2BUCKET env (JS.substring 1 (pathname (url request))) with
       | None => mkResponse 404 (Text "Object Not Found") []
       | Some o =>
           mkResponse 200 (Stream (object_body o))
             [("Content-Type", content_type_of o); ("Cache-Control", "public, max-age=86400")]
       end).
Proof.
  intros Hs Hp. unfold fetch. rewrite (importKey_secret env Hs), bind_lift_return.
  unfold JS.startsWith. rewrite Hp, bind_bucket_get.
  now destruct (THE_R2BUCKET env _).
Qed.

Lemma fetch_generate request env now :
  SECRET_DATA env <> Some "" ->
  String.prefix "/assets/" (pathname (url request)) = false ->
  String.prefix "/generate/" (pathname (url request)) = true ->
  fetch request env now =
    ([],
     Return
       (mkResponse 200
          (Text
             (let target := JS.replace "/generate/" "/" (pathname (url request)) in
              target ++
              search (mkURL target
                        (set (searchParams (url request)) "verify"
                           (issue (secretKeyData env) target now)))))
          [])).
Proof.
  intros Hs Ha Hg. unfold fetch. rewrite (importKey_secret env Hs), bind_lift_return.
  unfold JS.startsWith. now rewrite Ha, Hg.
Qed.

Lemma fetch_protected request env now :
  SECRET_DATA env <> Some "" ->
  Spec.classify (pathname (url request)) = Spec.Protected ->
  fetch request env now =
    match verify (secretKeyData env) (pathname (url request))
            (get (searchParams (url request)) "verify") now with
    | Throw e => ([], Throw e)
    | Return (Err MissingToken) =>
        ([], Return (mkResponse 403 (Text "Authentication required") []))
    | Return (Err MacMismatch) => ([], Return (mkResponse 403 (Text "Invalid MAC") []))
    | Return (Err (Expired date)) => ([], Return (mkResponse 403 (UrlExpiredAt date) []))
    | Return Ok =>
        ([JS.substring 1 (pathname (url request))],
         Return
           match THE_R2BUCKET env (JS.substring 1 (pathname (url request))) with
           | None => mkResponse 404 (Text "Object Not Found") []
           | Some o =>
               mkResponse 200 (Stream (object_body o))
                 [("Content-Type", content_type_of o); ("Cache-Control", "private, no-store")]
           end)
    end.
Proof.
  intros Hs Hc. unfold fetch. rewrite (importKey_secret env Hs), bind_lift_return.
  unfold Spec.classify in Hc. unfold JS.startsWith.
  destruct (String.prefix "/assets/" _); [discriminate|].
  destruct (String.prefix "/generate/" _); [discriminate|].
  destruct (String.prefix "/uploads/" _ || String.prefix "/invoices/" _); [|discriminate].
  destruct (verify _ _ _ _) as [[|[| |date]]|e]; try reflexivity.
  rewrite bind_lift_return, bind_bucket_get. now destruct (THE_R2BUCKET env _).
Qed.

Lemma fetch_denied request env now :
  SECRET_DATA env <> Some "" ->
  Spec.classify (pathname (url request)) = Spec.Denied ->
  fetch request env now = ([], Return (mkResponse 403 (Text "Access denied") [])).
Proof.
  intros Hs Hc. unfold fetch. rewrite (importKey_secret env Hs), bind_lift_return.
  unfold Spec.classify in Hc. unfold JS.startsWith.
  destruct (String.prefix "/assets/" _); [discriminate|].
  destruct (String.prefix "/generate/" _); [discriminate|].
  destruct (String.prefix "/uploads/" _ || String.prefix "/invoices/" _); [discriminate|].
  reflexivity.
Qed.

Lemma classify_public path :
  Spec.classify path = Spec.Public -> String.prefix "/assets/" path = true.
Proof.
  unfold Spec.classify. destruct (String.prefix "/assets/" path); [reflexivity|].
  destruct (String.prefix "/generate/" path); [discriminate|].
  destruct (String.prefix "/uploads/" path || String.prefix "/invoices/" path); discriminate.
Qed.

Lemma classify_generate path :
  Spec.classify path = Spec.Generate ->
  String.prefix "/assets/" path = false /\ String.prefix "/generate/" path = true.
Proof.
  unfold Spec.classify. destruct (String.prefix "/assets/" path); [discriminate|].
  destruct (String.prefix "/generate/" path); [auto|].
  destruct (String.prefix "/uploads/" path || String.prefix "/invoices/" path); discriminate.
Qed.

Lemma classify_protected path :
  Spec.classify path = Spec.Protected ->
  String.prefix "/uploads/" path = true \/ String.prefix "/invoices/" path = true.
Proof.
  unfold Spec.classify. destruct (String.prefix "/assets/" path); [discriminate|].
  destruct (String.prefix "/generate/" path); [discriminate|].
  destruct (String.prefix "/uploads/" path); [auto|].
  destruct (String.prefix "/invoices/" path); [auto|discriminate].
Qed.

Lemma verify_throws key p param now e : verify key p param now = Throw e -> e = TypeError.
Proof.
  unfold verify. destruct param as [raw|]; [|discriminate].
  destruct (nth_error (JS.split "-" raw) 1) as [h|]; cbn [Buffer_from_base64].
  - destruct (negb _); [discriminate|]. destruct (JS.gt _ _); discriminate.
  - now intros [= <-].
Qed.

(** The bucket reads of a request, by class. *)
Lemma fetch_reads request env now :
  SECRET_DATA env <> Some "" ->
  fst (fetch request env now) =
    match Spec.classify (pathname (url request)) with
    | Spec.Public => [JS.substring 1 (pathname (url request))]
    | Spec.Protected =>
        match verify (secretKeyData env) (pathname (url request))
                (get (searchParams (url request)) "verify") now with
        | Return Ok => [JS.substring 1 (pathname (url request))]
        | _ => []
        end
    | _ => []
    end.
Proof.
  intros Hs. destruct (Spec.classify (pathname (url request))) eqn:Hc.
  - now rewrite (fetch_assets request env now Hs (classify_public _ Hc)).
  - destruct (classify_generate _ Hc) as [Ha Hg].
    now rewrite (fetch_generate request env now Hs Ha Hg).
  - rewrite (fetch_protected request env now Hs Hc).
    now destruct (verify _ _ _ _) as [[|[| |date]]|e].
  - now rewrite (fetch_denied request env now Hs Hc).
Qed.

(** Once the key is imported, the only fault left is the verifier's. *)
Lemma fetch_throws request env now e :
  SECRET_DATA env <> Some "" -> snd (fetch request env now) = Throw e -> e = TypeError.
Proof.
  intros Hs. destruct (Spec.classify (pathname (url request))) eqn:Hc.
  - rewrite (fetch_assets request env now Hs (classify_public _ Hc)). discriminate.
  - destruct (classify_generate _ Hc) as [Ha Hg].
    rewrite (fetch_generate request env now Hs Ha Hg). discriminate.
  - rewrite (fetch_protected request env now Hs Hc).
    destruct (verify _ _ _ _) as [[|[| |date]]|e'] eqn:Hv; try discriminate.
    apply verify_throws in Hv. cbn [snd]. congruence.
  - rewrite (fetch_denied request env now Hs Hc). discriminate.
Qed.

End FetchFacts.

Import Web Worker FetchFacts.
Local Open Scope string_scope.
Local Open Scope Z_scope.

(** ** Lengths, digits, queries and issued tokens *)

Module MoreFacts.

Lemma split_nonempty sep s : JS.split sep s <> [].
Proof.
  destruct s as [|c s]; simpl; [discriminate|].
  destruct (Ascii.eqb c sep); [discriminate|].
  destruct (JS.split sep s); discriminate.
Qed.

Lemma split_at_least_two sep s :
  JS.includes sep s = true -> exists a b rest, JS.split sep s = a :: b :: rest.
Proof.
  induction s as [|c s IH]; simpl; [discriminate|].
  destruct (Ascii.eqb c sep) eqn:Hc; simpl.
  - intros _. pose proof (split_nonempty sep s) as Hne.
    destruct (JS.split sep s) as [|b rest]; [now elim Hne|].
    now exists EmptyString, b, rest.
  - intros H. destruct (IH H) as (a & b & rest & ->).
    now exists (String c a), b, rest.
Qed.

Lemma includes_cases sep s :
  (JS.includes sep s = false /\ JS.split sep s = [s])
  \/ (JS.includes sep s = true /\ exists a b rest, JS.split sep s = a :: b :: rest).
Proof.
  destruct (JS.includes sep s) eqn:H.
  - right. split; [reflexivity|now apply split_at_least_two].
  - left. split; [reflexivity|now apply JSFacts.split_whole].
Qed.

Lemma pow10_pos k : 0 < JS.pow10 k.
Proof. unfold JS.pow10. apply Z.pow_pos_nonneg; lia. Qed.

(** The clock only enters through [now / 1000 > limit], which grows with
    the clock. *)
Lemma gt_clock_mono now now' limit :
  now <= now' ->
  JS.gt (JS.div1000 (JS.of_Z now)) limit = true ->
  JS.gt (JS.div1000 (JS.of_Z now')) limit = true.
Proof.
  intros Hle. destruct limit as [m k| |b]; simpl; try (intros H; exact H).
  intros H. apply Z.ltb_lt in H. apply Z.ltb_lt.
  pose proof (pow10_pos k). nia.
Qed.

(** *** The MAC is 32 bytes long *)

Lemma compress_length h block : List.length (SHA256.compress h block) = 8%nat.
Proof. reflexivity. Qed.

Lemma fold_compress_length blocks h :
  List.length h = 8%nat -> List.length (fold_left SHA256.compress blocks h) = 8%nat.
Proof.
  revert h. induction blocks as [|b blocks IH]; intros h Hh; simpl; [exact Hh|].
  apply IH. apply compress_length.
Qed.

Lemma be_bytes_length n x : List.length (SHA256.be_bytes n x) = n.
Proof. induction n as [|n IH]; simpl; [reflexivity|now rewrite IH]. Qed.

Lemma flat_map_be_bytes_length h :
  List.length (flat_map (SHA256.be_bytes 4) h) = (4 * List.length h)%nat.
Proof.
  induction h as [|x h IH]; [reflexivity|].
  change (flat_map (SHA256.be_bytes 4) (x :: h))
    with (SHA256.be_bytes 4 x ++ flat_map (SHA256.be_bytes 4) h)%list.
  rewrite List.length_app, be_bytes_length, IH. cbn [List.length]. lia.
Qed.

Lemma digest_length msg : List.length (SHA256.digest msg) = 32%nat.
Proof.
  unfold SHA256.digest. rewrite List.length_map, flat_map_be_bytes_length.
  rewrite fold_compress_length; reflexivity.
Qed.

Lemma hmac_length key msg : List.length (SHA256.hmac key msg) = 32%nat.
Proof. unfold SHA256.hmac. apply digest_length. Qed.

(** *** Length of a base64 text *)

Lemma string_length_of_list l :
  String.length (string_of_list_ascii l) = List.length l.
Proof. induction l as [|c l IH]; simpl; [reflexivity|now rewrite IH]. Qed.

Lemma pack_padding_length bs :
  (List.length (Base64.pack bs) + List.length (Base64.padding (List.length bs))
   = 4 * ((List.length bs + 2) / 3))%nat.
Proof.
  induction bs as [ | x | x y | x y z l IH ] using list_ind3; try reflexivity.
  cbn [Base64.pack List.length app]. unfold Base64.padding in *.
  replace (S (S (S (List.length l)))) with (List.length l + 1 * 3)%nat by lia.
  rewrite Nat.Div0.mod_add.
  replace (List.length l + 1 * 3 + 2)%nat with (List.length l + 2 + 1 * 3)%nat by lia.
  rewrite Nat.div_add by discriminate. lia.
Qed.

Lemma encode_length bs :
  String.length (Base64.encode bs) = (4 * ((List.length bs + 2) / 3))%nat.
Proof.
  unfold Base64.encode. rewrite string_length_of_list, List.length_app, List.length_map.
  apply pack_padding_length.
Qed.

(** *** Digits *)

Lemma uint_of_string_plain s u :
  NilEmpty.uint_of_string s = Some u -> JS.includes "-" s = false.
Proof.
  revert u. induction s as [|c s IH]; intros u; [reflexivity|].
  cbn [NilEmpty.uint_of_string JS.includes].
  destruct (NilEmpty.uint_of_string s) as [d|]; [|discriminate].
  rewrite (IH d eq_refl), orb_false_r.
  destruct c as [[] [] [] [] [] [] [] []]; cbn; intros H; try discriminate H; reflexivity.
Qed.

Lemma digits_only_plain s n : JS.digits_only s = Some n -> JS.includes "-" s = false.
Proof.
  unfold JS.digits_only. destruct s as [|c s]; [discriminate|].
  destruct (NilEmpty.uint_of_string (String c s)) as [u|] eqn:Hu; [|discriminate].
  intros _. exact (uint_of_string_plain _ _ Hu).
Qed.

Lemma Number_digits s n :
  JS.digits_only s = Some n -> Z.of_N n < 2 ^ 53 -> JS.Number s = JS.Fin (Z.of_N n) 0.
Proof. unfold JS.Number. intros -> Hn. now apply JSFacts.to_double_integer. Qed.

(** *** URLSearchParams *)

Lemma get_remove ps name : get (remove ps name) name = None.
Proof.
  induction ps as [|[n v] ps IH]; [reflexivity|].
  unfold remove in *. cbn [filter fst].
  destruct (String.eqb n name) eqn:Hn; cbn [negb]; [exact IH|].
  cbn [get]. now rewrite Hn.
Qed.

Lemma get_set ps name value : get (set ps name value) name = Some value.
Proof.
  induction ps as [|[n v] ps IH]; cbn [set get].
  - now rewrite String.eqb_refl.
  - destruct (String.eqb n name) eqn:Hn; cbn [get]; now rewrite Hn.
Qed.

Lemma remove_remove ps name : remove (remove ps name) name = remove ps name.
Proof.
  unfold remove. induction ps as [|[n v] ps IH]; [reflexivity|].
  cbn [filter fst]. destruct (String.eqb n name) eqn:Hn; cbn [negb]; [exact IH|].
  cbn [filter fst]. rewrite Hn. cbn [negb]. now rewrite IH.
Qed.

Lemma remove_set ps name value : remove (set ps name value) name = remove ps name.
Proof.
  induction ps as [|[n v] ps IH]; cbn [set].
  - unfold remove. cbn [filter fst]. now rewrite String.eqb_refl.
  - destruct (String.eqb n name) eqn:Hn.
    + unfold remove at 1 3. cbn [filter fst]. rewrite Hn. cbn [negb].
      apply remove_remove.
    + unfold remove at 1 2. cbn [filter fst]. rewrite Hn. cbn [negb].
      f_equal. exact IH.
Qed.

Lemma named_remove ps name :
  filter (fun p => String.eqb (fst p) name) (remove ps name) = [].
Proof.
  unfold remove. induction ps as [|[n v] ps IH]; [reflexivity|].
  cbn [filter fst]. destruct (String.eqb n name) eqn:Hn; cbn [negb]; [exact IH|].
  cbn [filter fst]. now rewrite Hn.
Qed.

Lemma named_set ps name value :
  filter (fun p => String.eqb (fst p) name) (set ps name value) = [(name, value)].
Proof.
  induction ps as [|[n v] ps IH]; cbn [set].
  - cbn [filter fst]. now rewrite String.eqb_refl.
  - destruct (String.eqb n name) eqn:Hn; cbn [filter fst]; rewrite Hn.
    + apply String.eqb_eq in Hn. subst n. now rewrite named_remove.
    + exact IH.
Qed.

(** *** The generate branch *)

Lemma replace_prefix pat by_ s :
  String.prefix pat s = true ->
  JS.replace pat by_ s = by_ ++ JS.substring (String.length pat) s.
Proof. intros H. destruct s; cbn [JS.replace]; now rewrite H. Qed.

Lemma generate_not_assets path :
  String.prefix "/generate/" path = true -> String.prefix "/assets/" path = false.
Proof.
  destruct path as [|c1 [|c2 path]]; cbn [String.prefix]; try reflexivity.
  - destruct (ascii_dec "/" c1); reflexivity.
  - destruct (ascii_dec "/" c1); [|reflexivity].
    destruct (ascii_dec "g" c2) as [<-|]; [|discriminate].
    destruct (ascii_dec "a" "g"); [discriminate|reflexivity].
Qed.

(** *** Issued tokens *)

Lemma deadline_value t :
  0 <= t -> (t + EXPIRY) * 1000 <= JS.MAX_TIME ->
  JS.time_value (JS.mul1000 (JS.add (JS.Fin t 0) (JS.of_Z EXPIRY)))
  = Some ((t + EXPIRY) * 1000).
Proof.
  intros H0 H1. unfold JS.time_value, JS.mul1000, JS.add, JS.of_Z, EXPIRY in *.
  simpl N.add. change (JS.pow10 0) with 1. rewrite Z.quot_1_r.
  replace ((t * 1 + 600 * 1) * 1000) with ((t + 600) * 1000) by lia.
  destruct (Z.leb_spec (Z.abs ((t + 600) * 1000)) JS.MAX_TIME); [reflexivity|lia].
Qed.

Lemma verify_issued key p now now' :
  0 <= now <= JS.MAX_TIME ->
  verify key p (Some (issue key p now)) now' =
    if (now / 1000 + EXPIRY) * 1000 <? now'
    then Return (Err (Expired
           (JS.time_value (JS.mul1000 (JS.add (JS.Fin (now / 1000) 0) (JS.of_Z EXPIRY))))))
    else Return Ok.
Proof.
  intros Hnow. destruct (TokenFacts.clock_bound now Hnow) as [Hq0 Hq1].
  rewrite TokenFacts.issue_serialize by lia.
  rewrite TokenFacts.verify_serialized by (rewrite Z2N.id; lia).
  now rewrite bytes_eqb_refl, Z2N.id by exact Hq0.
Qed.

(** *** Counting MACs against paths *)



Section Pigeonhole.

Variable A : Type.
Hypothesis A_eq_dec : forall x y : A, {x = y} + {x <> y}.
Variable f : nat -> A.



End Pigeonhole.






(** *** Texts of letters *)

Lemma letter_range c : JS.letter c = true -> 65 <= byte_to_Z c <= 122.
Proof.
  unfold JS.letter. intros H. apply orb_prop in H.
  destruct H as [H|H]; apply andb_prop in H; destruct H as [H1 H2];
    apply Z.leb_le in H1, H2; lia.
Qed.

Lemma letter_not_space c : JS.letter c = true -> JS.is_space c = false.
Proof.
  intros H. apply letter_range in H. unfold JS.is_space.
  destruct (Z.leb_spec 9 (byte_to_Z c)), (Z.leb_spec (byte_to_Z c) 13),
    (Z.eqb_spec (byte_to_Z c) 32); try reflexivity; lia.
Qed.

Lemma letter_not_space2 c c' : JS.letter c = true -> JS.space2 c c' = false.
Proof.
  intros H. apply letter_range in H. unfold JS.space2.
  destruct (Z.eqb_spec (byte_to_Z c) 194); [lia|reflexivity].
Qed.

Lemma letter_not_space2_end c c' : JS.letter c = true -> JS.space2 c' c = false.
Proof.
  intros H. apply letter_range in H. unfold JS.space2.
  destruct (Z.eqb_spec (byte_to_Z c) 160); [lia|apply andb_false_r].
Qed.

Lemma letter_not_space3 c c' c'' : JS.letter c = true -> JS.space3 c c' c'' = false.
Proof.
  intros H. apply letter_range in H. unfold JS.space3.
  destruct (Z.eqb_spec (byte_to_Z c) 225), (Z.eqb_spec (byte_to_Z c) 226),
    (Z.eqb_spec (byte_to_Z c) 227), (Z.eqb_spec (byte_to_Z c) 239);
    try reflexivity; lia.
Qed.

Lemma letter_not_space3_end c c' c'' : JS.letter c = true -> JS.space3 c'' c' c = false.
Proof.
  intros H. apply letter_range in H. unfold JS.space3.
  destruct (Z.eqb_spec (byte_to_Z c) 128), (Z.leb_spec 128 (byte_to_Z c)),
    (Z.eqb_spec (byte_to_Z c) 168), (Z.eqb_spec (byte_to_Z c) 169),
    (Z.eqb_spec (byte_to_Z c) 175), (Z.eqb_spec (byte_to_Z c) 159),
    (Z.eqb_spec (byte_to_Z c) 191); lia.
Qed.

Lemma trim_start_letters fuel s : JS.all_letters s = true -> JS.trim_start fuel s = s.
Proof.
  destruct fuel as [|fuel]; [reflexivity|]. cbn [JS.trim_start].
  destruct s as [|c s]; [reflexivity|]. cbn [JS.all_letters].
  intros H. apply andb_prop in H. destruct H as [Hc _].
  assert (JS.space_prefix (String c s) = 0%nat) as ->; [|reflexivity].
  destruct s as [|c1 [|c2 s]]; cbn [JS.space_prefix];
    now rewrite ?(letter_not_space c Hc), ?(letter_not_space2 c c1 Hc),
                ?(letter_not_space3 c c1 c2 Hc).
Qed.

Lemma trim_end_letters fuel r : JS.all_letters r = true -> JS.trim_end fuel r = r.
Proof.
  destruct fuel as [|fuel]; [reflexivity|]. cbn [JS.trim_end].
  destruct r as [|c r]; [reflexivity|]. cbn [JS.all_letters].
  intros H. apply andb_prop in H. destruct H as [Hc _].
  assert (JS.space_suffix (String c r) = 0%nat) as ->; [|reflexivity].
  destruct r as [|c1 [|c2 r]]; cbn [JS.space_suffix];
    now rewrite ?(letter_not_space c Hc), ?(letter_not_space2_end c c1 Hc),
                ?(letter_not_space3_end c c1 c2 Hc).
Qed.

Lemma all_letters_chars s :
  JS.all_letters s = forallb JS.letter (list_ascii_of_string s).
Proof. induction s as [|c s IH]; [reflexivity|]. cbn. now rewrite IH. Qed.

Lemma forallb_reversed {A} (f : A -> bool) l : forallb f (List.rev l) = forallb f l.
Proof.
  induction l as [|a l IH]; [reflexivity|].
  cbn [List.rev forallb]. rewrite forallb_app, IH. cbn [forallb].
  rewrite andb_true_r. apply andb_comm.
Qed.

Lemma all_letters_rev s : JS.all_letters (JS.rev_string s) = JS.all_letters s.
Proof.
  unfold JS.rev_string.
  now rewrite !all_letters_chars, list_ascii_of_string_of_list_ascii, forallb_reversed.
Qed.

Lemma rev_string_involutive s : JS.rev_string (JS.rev_string s) = s.
Proof.
  unfold JS.rev_string.
  now rewrite list_ascii_of_string_of_list_ascii, rev_involutive,
    string_of_list_ascii_of_string.
Qed.

Lemma trim_letters s : JS.all_letters s = true -> JS.trim s = s.
Proof.
  intros H. unfold JS.trim. rewrite (trim_start_letters _ s H).
  rewrite trim_end_letters by now rewrite all_letters_rev.
  apply rev_string_involutive.
Qed.

Lemma letter_no_digit c d : JS.letter c = true -> uint_of_char c d = None.
Proof.
  destruct d as [d|]; [|reflexivity].
  destruct c as [[] [] [] [] [] [] [] []]; intros H; vm_compute in H;
    try discriminate H; reflexivity.
Qed.

Lemma digits_only_letter c s : JS.letter c = true -> JS.digits_only (String c s) = None.
Proof.
  intros H. unfold JS.digits_only. cbn [NilEmpty.uint_of_string].
  now rewrite (letter_no_digit c _ H).
Qed.

Lemma numeric_literal_letter c s :
  JS.letter c = true -> JS.numeric_literal (String c s) = JS.unsigned_decimal (String c s).
Proof.
  destruct c as [[] [] [] [] [] [] [] []]; intros H; vm_compute in H;
    try discriminate H; reflexivity.
Qed.

Lemma cut_letters_head p s : JS.all_letters s = true -> JS.all_letters (fst (JS.cut p s)) = true.
Proof.
  induction s as [|c s IH]; [reflexivity|]. cbn [JS.all_letters JS.cut].
  intros H. apply andb_prop in H. destruct H as [Hc Hs].
  destruct (p c); [reflexivity|].
  specialize (IH Hs). destruct (JS.cut p s) as [a b]. cbn [fst JS.all_letters] in *.
  now rewrite Hc, IH.
Qed.

Lemma cut_letters_whole p s :
  (forall c, JS.letter c = true -> p c = false) ->
  JS.all_letters s = true -> JS.cut p s = (s, None).
Proof.
  intros Hp. induction s as [|c s IH]; [reflexivity|]. cbn [JS.all_letters JS.cut].
  intros H. apply andb_prop in H. destruct H as [Hc Hs].
  now rewrite (Hp c Hc), (IH Hs).
Qed.

Lemma letter_not_dot c : JS.letter c = true -> Ascii.eqb c "." = false.
Proof.
  intros H. apply letter_range in H. apply Ascii.eqb_neq. intros ->.
  vm_compute in H. destruct H as [H _]. now apply H.
Qed.

Lemma append_empty s : s ++ "" = s.
Proof. induction s as [|c s IH]; [reflexivity|]. cbn [append]. now rewrite IH. Qed.

Lemma unsigned_decimal_letters s :
  JS.all_letters s = true ->
  JS.unsigned_decimal s = JS.NaN \/ JS.unsigned_decimal s = JS.Inf false.
Proof.
  intros H. unfold JS.unsigned_decimal.
  destruct (String.eqb s "Infinity"); [now right|left].
  pose proof (cut_letters_head
                (fun c => Ascii.eqb c "e"%char || Ascii.eqb c "E"%char) s H) as Hm.
  destruct (JS.cut _ s) as [mant ex]. cbn [fst] in Hm.
  rewrite (cut_letters_whole _ mant letter_not_dot Hm), append_empty.
  destruct mant as [|c mant]; [reflexivity|].
  cbn [JS.all_letters] in Hm. apply andb_prop in Hm. destruct Hm as [Hc _].
  now rewrite (digits_only_letter c mant Hc).
Qed.

(** A text of letters is no number, or [Infinity]. *)
Lemma Number_letters s :
  JS.letters s = true -> JS.Number s = JS.NaN \/ JS.Number s = JS.Inf false.
Proof.
  destruct s as [|c s]; [discriminate|]. cbn [JS.letters]. intros H.
  pose proof H as Hc. cbn [JS.all_letters] in Hc. apply andb_prop in Hc.
  destruct Hc as [Hc _].
  unfold JS.Number. rewrite (digits_only_letter c s Hc), (trim_letters _ H).
  rewrite (numeric_literal_letter c s Hc). now apply unsigned_decimal_letters.
Qed.

End MoreFacts.

Import MoreFacts.

(** * The claims *)

(** The scenario, run: the token issued at [1700000000] is served at
    [1700000500] and refused as expired at [1700000700]. *)
Example scenario_token :
  issue test_key test_path 1700000000000
  = "1700000000-HbpiiOXOpWRiGPMQenfTuxLZaWkrsdLUDT8OXH7ENco=".
Proof. vm_compute. reflexivity. Qed.

Example scenario_served :
  fetch (mkRequest (mkURL test_path [("verify", issue test_key test_path 1700000000000)]))
    test_env 1700000500000
  = (["uploads/file.txt"],
     Return (mkResponse 200 (Stream (encode "hello"))
               [("Content-Type", "application/octet-stream");
                ("Cache-Control", "private, no-store")])).
Proof. vm_compute. reflexivity. Qed.

Example scenario_expired :
  fetch (mkRequest (mkURL test_path [("verify", issue test_key test_path 1700000000000)]))
    test_env 1700000700000
  = ([], Return (mkResponse 403 (UrlExpiredAt (Some 1700000600000)) [])).
Proof. vm_compute. reflexivity. Qed.

Example scenario_signed_url :
  fetch (mkRequest (mkURL "/generate/uploads/file.txt" [])) test_env 1700000000123
  = ([], Return (mkResponse 200
       (Text "/uploads/file.txt?verify=1700000000-HbpiiOXOpWRiGPMQenfTuxLZaWkrsdLUDT8OXH7ENco%3D")
       [])).
Proof. vm_compute. reflexivity. Qed.



(** C2, as stated, fails: a token whose timestamp lies in the future and
    whose MAC is right is accepted, although the invariant of the data
    model calls it invalid. *)
Lemma future_timestamp_accepted :
  verify test_key test_path (Some (Spec.serialize 1700000000 test_tag)) 1600000000000
  = Return Ok
  /\ ~ Spec.valid test_key test_path 1700000000 test_tag 1600000000000.
Proof.
  split; [vm_compute; reflexivity|].
  intros [[Hlow _] _]. vm_compute in Hlow. now apply Hlow.
Qed.

(** C2, amended - a token [{ ts, mac }] presented for path [p] is accepted
    at [now] exactly when [now] is not past [ts + EXPIRY] seconds and [mac]
    is the MAC of the canonical message of [p] and [ts]; there is no lower
    bound on [now]. One second past the window the right token is
    rejected as expired, and before its own timestamp it is accepted. *)
Theorem token_validity (key : CryptoKey) (p : string) (ts : N) (mac : bytes) (now : Z) :
  Z.of_N ts < 2 ^ 53 ->
  let tag := SHA256.hmac key (encode (Spec.CanonicalMessage p ts)) in
  (verify key p (Some (Spec.serialize ts mac)) now = Return Ok
   <-> now <= (Z.of_N ts + EXPIRY) * 1000 /\ mac = tag)
  /\ (exists date,
        verify key p (Some (Spec.serialize ts tag)) ((Z.of_N ts + EXPIRY + 1) * 1000)
        = Return (Err (Expired date)))
  /\ (now < Z.of_N ts * 1000 ->
      verify key p (Some (Spec.serialize ts tag)) now = Return Ok).
Proof.
  intros Hts tag.
  rewrite !TokenFacts.verify_serialized by exact Hts. fold tag.
  rewrite bytes_eqb_refl. unfold EXPIRY. repeat split.
  - destruct (bytes_eqb tag mac) eqn:Hmac; [|discriminate].
    destruct (Z.ltb_spec ((Z.of_N ts + 600) * 1000) now); [discriminate|lia].
  - destruct (bytes_eqb tag mac) eqn:Hmac; [|discriminate].
    symmetry. now apply bytes_eqb_eq.
  - intros [Hnow ->]. rewrite bytes_eqb_refl.
    destruct (Z.ltb_spec ((Z.of_N ts + 600) * 1000) now); [lia|reflexivity].
  - destruct (Z.ltb_spec ((Z.of_N ts + 600) * 1000) ((Z.of_N ts + 600 + 1) * 1000));
      [eexists; reflexivity|lia].
  - intros Hnow.
    destruct (Z.ltb_spec ((Z.of_N ts + 600) * 1000) now); [lia|reflexivity].
Qed.

Lemma token_validity_witness :
  Z.of_N 1700000000 < 2 ^ 53
  /\ (verify test_key test_path (Some (Spec.serialize 1700000000 test_tag)) 1700000500000
      = Return Ok
      <-> 1700000500000 <= (Z.of_N 1700000000 + EXPIRY) * 1000 /\ test_tag = test_tag).
Proof.
  assert (Z.of_N 1700000000 < 2 ^ 53) as H by (vm_compute; reflexivity).
  split; [exact H|].
  exact (proj1 (token_validity test_key test_path 1700000000 test_tag 1700000500000 H)).
Defined.

(** C3 fails on the code.  A protected request whose [verify] value holds
    no [-] is not answered: the second piece of the split is [undefined],
    [Buffer.from] throws a [TypeError], and nothing catches it. *)
Theorem missing_separator_throws (request : Request) (env : Env) (now : Z) (raw : string) :
  SECRET_DATA env <> Some "" ->
  Spec.classify (pathname (url request)) = Spec.Protected ->
  get (searchParams (url request)) "verify" = Some raw ->
  JS.includes "-" raw = false ->
  fetch request env now = ([], Throw TypeError).
Proof.
  intros Hs Hc Hget Hraw. rewrite (fetch_protected request env now Hs Hc), Hget.
  now rewrite (verify_without_separator _ _ raw now Hraw).
Qed.

Lemma missing_separator_throws_witness :
  SECRET_DATA test_env <> Some ""
  /\ Spec.classify test_path = Spec.Protected
  /\ get [("verify", "abc")] "verify" = Some "abc"
  /\ JS.includes "-" "abc" = false
  /\ fetch (mkRequest (mkURL test_path [("verify", "abc")])) test_env 1700000500000
     = ([], Throw TypeError).
Proof.
  assert (SECRET_DATA test_env <> Some "") as Hs by discriminate.
  assert (Spec.classify (pathname (url (mkRequest (mkURL test_path [("verify", "abc")]))))
          = Spec.Protected) as Hc by reflexivity.
  assert (get (searchParams (url (mkRequest (mkURL test_path [("verify", "abc")])))) "verify"
          = Some "abc") as Hget by reflexivity.
  assert (JS.includes "-" "abc" = false) as Hraw by reflexivity.
  split; [exact Hs|]. split; [exact Hc|]. split; [exact Hget|]. split; [exact Hraw|].
  exact (missing_separator_throws _ test_env 1700000500000 "abc" Hs Hc Hget Hraw).
Defined.

(** C4, as stated, fails: a value with a third piece after the MAC does
    not parse under the rules of the specification, yet the verifier
    accepts it. *)
Lemma trailing_piece_accepted :
  Spec.parse (issue test_key test_path 1700000000123 ++ "-junk") = None
  /\ verify test_key test_path (Some (issue test_key test_path 1700000000123 ++ "-junk"))
       1700000500000 = Return Ok.
Proof. split; vm_compute; reflexivity. Qed.

(** C4, amended - the raw [verify] value is split at every [-]; the first
    piece is the timestamp text, the second the mac text, further pieces
    are ignored. Neither piece is validated and there is no parse error:
    every value with a [-] gets its answer from the MAC comparison or from
    what follows it. For a timestamp text of decimal digits (below [2^53])
    and a mac text of base64 characters, the value is rejected as a MAC
    mismatch exactly when the decoded bytes are not the MAC of the
    requested path followed by the timestamp. *)
Theorem token_parsing (key : CryptoKey) (p raw : string) (now : Z)
    (ts mac : string) (rest : list string) :
  JS.split "-" raw = ts :: mac :: rest ->
  verify key p (Some raw) now = verify key p (Some (ts ++ "-" ++ mac)) now
  /\ (forall n,
        JS.digits_only ts = Some n -> Z.of_N n < 2 ^ 53 -> Base64.plain mac = true ->
        (verify key p (Some raw) now = Return (Err MacMismatch)
         <-> Base64.decode mac <> SHA256.hmac key (encode (Spec.CanonicalMessage p n))))
  /\ (exists v, verify key p (Some raw) now = Return v /\ v <> Err MissingToken).
Proof.
  intros Hsplit.
  pose proof (JSFacts.split_pieces "-" raw) as Hpieces. rewrite Hsplit in Hpieces.
  inversion Hpieces as [|? ? Hts Hrest]; subst.
  inversion Hrest as [|? ? Hmac _]; subst.
  rewrite (verify_pieces key p raw now ts mac rest Hsplit).
  rewrite (verify_pieces key p (ts ++ "-" ++ mac) now ts mac []
             (JSFacts.split_two "-" ts mac Hts Hmac)).
  split; [reflexivity|]. unfold subtle_verify. split.
  - intros n Hd Hn _. rewrite (Number_digits ts n Hd Hn).
    unfold dataToAuthenticate. rewrite (JSFacts.to_string_decimal n Hn).
    fold (Spec.CanonicalMessage p n).
    destruct (bytes_eqb _ (Base64.decode mac)) eqn:Heq.
    + apply bytes_eqb_eq in Heq. split; [|intros H; now elim H].
      destruct (JS.gt _ _); discriminate.
    + split; [|reflexivity]. intros _ H. symmetry in H.
      apply bytes_eqb_eq in H. congruence.
  - destruct (bytes_eqb _ (Base64.decode mac)).
    + destruct (JS.gt _ _); eexists; (split; [reflexivity|discriminate]).
    + eexists; split; [reflexivity|discriminate].
Qed.

Lemma token_parsing_witness :
  JS.split "-" "1700000000-AAAA-junk" = ["1700000000"; "AAAA"; "junk"]
  /\ JS.digits_only "1700000000" = Some 1700000000%N
  /\ Z.of_N 1700000000 < 2 ^ 53
  /\ Base64.plain "AAAA" = true
  /\ verify test_key test_path (Some "1700000000-AAAA-junk") 1700000500000
     = verify test_key test_path (Some ("1700000000" ++ "-" ++ "AAAA")) 1700000500000
  /\ (verify test_key test_path (Some "1700000000-AAAA-junk") 1700000500000
      = Return (Err MacMismatch)
      <-> Base64.decode "AAAA"
          <> SHA256.hmac test_key (encode (Spec.CanonicalMessage test_path 1700000000))).
Proof.
  assert (JS.split "-" "1700000000-AAAA-junk" = ["1700000000"; "AAAA"; "junk"]) as H
    by reflexivity.
  assert (JS.digits_only "1700000000" = Some 1700000000%N) as Hd by reflexivity.
  assert (Z.of_N 1700000000 < 2 ^ 53) as Hn by (vm_compute; reflexivity).
  assert (Base64.plain "AAAA" = true) as Hm by reflexivity.
  split; [exact H|]. split; [exact Hd|]. split; [exact Hn|]. split; [exact Hm|]. split.
  - exact (proj1 (token_parsing test_key test_path _ 1700000500000 _ _ _ H)).
  - exact (proj1 (proj2 (token_parsing test_key test_path _ 1700000500000 _ _ _ H))
             _ Hd Hn Hm).
Defined.




(** C6 - The canonical message is not injective: [/a1] with timestamp [23]
    and [/a] with timestamp [123] are different pairs with the same
    message, hence the same MAC input and the same MAC under every key. *)
Theorem canonical_message_ambiguous :
  ("/a1", 23) <> ("/a", 123)
  /\ dataToAuthenticate "/a1" (JS.of_Z 23) = dataToAuthenticate "/a" (JS.of_Z 123)
  /\ (forall key,
        subtle_sign key (encode (dataToAuthenticate "/a1" (JS.of_Z 23)))
        = subtle_sign key (encode (dataToAuthenticate "/a" (JS.of_Z 123))))
  /\ ~ (forall p1 t1 p2 t2,
          dataToAuthenticate p1 (JS.of_Z t1) = dataToAuthenticate p2 (JS.of_Z t2) ->
          p1 = p2 /\ t1 = t2).
Proof.
  assert (dataToAuthenticate "/a1" (JS.of_Z 23) = dataToAuthenticate "/a" (JS.of_Z 123))
    as Hsame by reflexivity.
  split; [discriminate|]. split; [exact Hsame|]. split.
  - intros key. now rewrite Hsame.
  - intros Hinj. destruct (Hinj _ _ _ _ Hsame) as [Hp _]. discriminate.
Qed.

(** The ambiguity at work: the token issued for [/uploads/file1] opens
    [/uploads/file] once the [1] is moved in front of the timestamp, and
    the timestamp read that way lies centuries ahead. *)
Example ambiguity_moves_a_digit :
  verify test_key "/uploads/file"
    (Some ("1" ++ issue test_key "/uploads/file1" 1700000000000)) 1700009999000
  = Return Ok.
Proof. vm_compute. reflexivity. Qed.

(** C7 fails on the code.  On a protected path the bucket is read only
    after the verifier has answered [Ok]: in every other case the log of
    bucket reads is empty, and each rejection of the verifier (missing
    parameter, MAC mismatch, expiry) is answered with status 403. But a
    [verify] value that holds no [-], a token that does not parse, is not
    answered with 403: the verifier throws and the handler ends with the
    [TypeError], no response at all (and no bucket read). *)
Theorem verify_before_fetch (request : Request) (env : Env) (now : Z) :
  SECRET_DATA env <> Some "" ->
  Spec.classify (pathname (url request)) = Spec.Protected ->
  let v := verify (secretKeyData env) (pathname (url request))
             (get (searchParams (url request)) "verify") now in
  (v <> Return Ok -> fst (fetch request env now) = [])
  /\ (forall r, v = Return (Err r) ->
        exists response,
          fetch request env now = ([], Return response) /\ status response = 403)
  /\ (forall raw,
        get (searchParams (url request)) "verify" = Some raw ->
        JS.includes "-" raw = false ->
        v = Throw TypeError
        /\ fetch request env now = ([], Throw TypeError)
        /\ ~ (exists response, snd (fetch request env now) = Return response)).
Proof.
  intros Hs Hc v. rewrite (fetch_protected request env now Hs Hc). fold v.
  split; [|split].
  - intros Hv. destruct v as [[|[| |date]]|e]; try reflexivity. now elim Hv.
  - intros r ->. destruct r as [| |date]; eexists; split; reflexivity.
  - intros raw Hget Hraw.
    assert (v = Throw TypeError) as ->.
    { subst v. rewrite Hget. now apply verify_without_separator. }
    split; [reflexivity|]. split; [reflexivity|]. intros [response H]. discriminate H.
Qed.

Lemma verify_before_fetch_witness :
  SECRET_DATA test_env <> Some ""
  /\ Spec.classify test_path = Spec.Protected
  /\ get [("verify", "abc")] "verify" = Some "abc"
  /\ JS.includes "-" "abc" = false
  /\ verify (secretKeyData test_env) test_path (get [("verify", "abc")] "verify")
       1700000500000 = Throw TypeError
  /\ fetch (mkRequest (mkURL test_path [("verify", "abc")])) test_env 1700000500000
     = ([], Throw TypeError)
  /\ ~ (exists response,
          snd (fetch (mkRequest (mkURL test_path [("verify", "abc")])) test_env 1700000500000)
          = Return response).
Proof.
  assert (SECRET_DATA test_env <> Some "") as Hs by discriminate.
  assert (Spec.classify (pathname (url (mkRequest (mkURL test_path [("verify", "abc")]))))
          = Spec.Protected) as Hc by reflexivity.
  assert (get (searchParams (url (mkRequest (mkURL test_path [("verify", "abc")])))) "verify"
          = Some "abc") as Hget by reflexivity.
  assert (JS.includes "-" "abc" = false) as Hraw by reflexivity.
  split; [exact Hs|]. split; [exact Hc|]. split; [exact Hget|]. split; [exact Hraw|].
  exact (proj2 (proj2 (verify_before_fetch _ test_env 1700000500000 Hs Hc)) "abc" Hget Hraw).
Defined.

(** C8 - Classification.  The handler branches as the classifier says,
    which looks at the path only: a public path is fetched, a generate
    path is answered with a signed URL, a protected path goes through the
    verifier, and every other path is answered with 403 ["Access denied"]
    whatever the query holds, with no bucket read and an answer that
    depends on neither the key nor the clock. *)
Theorem classification (request : Request) (env : Env) (now : Z) :
  SECRET_DATA env <> Some "" ->
  let path := pathname (url request) in
  let out := fetch request env now in
  match Spec.classify path with
  | Spec.Public =>
      fst out = [JS.substring 1 path]
      /\ exists response, snd out = Return response /\ status response <> 403
  | Spec.Generate =>
      exists text, out = ([], Return (mkResponse 200 (Text text) []))
  | Spec.Protected =>
      let v := verify (secretKeyData env) path (get (searchParams (url request)) "verify") now in
      (v = Return Ok -> fst out = [JS.substring 1 path])
      /\ (v <> Return Ok -> fst out = [])
  | Spec.Denied =>
      out = ([], Return (mkResponse 403 (Text "Access denied") []))
  end.
Proof.
  intros Hs path out. subst out.
  destruct (Spec.classify path) eqn:Hc; subst path.
  - rewrite (fetch_assets request env now Hs (classify_public _ Hc)).
    split; [reflexivity|]. cbn [snd].
    destruct (THE_R2BUCKET env _); eexists; (split; [reflexivity|discriminate]).
  - destruct (classify_generate _ Hc) as [Ha Hg].
    rewrite (fetch_generate request env now Hs Ha Hg). eexists; reflexivity.
  - rewrite (fetch_protected request env now Hs Hc). split.
    + intros ->. reflexivity.
    + intros Hv. destruct (verify _ _ _ _) as [[|[| |date]]|e]; try reflexivity. now elim Hv.
  - apply (fetch_denied request env now Hs Hc).
Qed.

Lemma classification_witness :
  SECRET_DATA test_env <> Some ""
  /\ Spec.classify "/other/x" = Spec.Denied
  /\ fetch (mkRequest (mkURL "/other/x" [("verify", "1-AAAA")])) test_env 1700000500000
     = ([], Return (mkResponse 403 (Text "Access denied") [])).
Proof.
  assert (SECRET_DATA test_env <> Some "") as Hs by discriminate.
  split; [exact Hs|]. split; [reflexivity|].
  exact (classification (mkRequest (mkURL "/other/x" [("verify", "1-AAAA")])) test_env
           1700000500000 Hs).
Defined.

(** C9 - Default secret.  Without [SECRET_DATA] the handler answers every
    request as it does when [SECRET_DATA] is the string
    ["my secret symmetric key"], and the key import does not fail. *)
Theorem default_secret (request : Request) (bucket : R2Bucket) (now : Z) :
  fetch request (mkEnv None bucket) now
  = fetch request (mkEnv (Some "my secret symmetric key") bucket) now
  /\ importKey (secretKeyData (mkEnv None bucket))
     = Return (encode "my secret symmetric key")
  /\ snd (fetch request (mkEnv None bucket) now) <> Throw DataError.
Proof.
  split; [reflexivity|]. split; [reflexivity|].
  assert (SECRET_DATA (mkEnv None bucket) <> Some "") as Hs by discriminate.
  intros H. apply (fetch_throws request _ now DataError Hs) in H. discriminate.
Qed.

(** C10 - Object key.  Whenever the handler reads the bucket it reads it
    once, and the key is the request path without its leading [/], so the
    [assets/], [uploads/] or [invoices/] prefix is part of the key; a
    public request always gets there, a protected one when the verifier
    answers [Ok], and both derive the key in the same way. *)
Theorem object_key (request : Request) (env : Env) (now : Z) :
  SECRET_DATA env <> Some "" ->
  let path := pathname (url request) in
  let reads := fst (fetch request env now) in
  (forall k, In k reads ->
     reads = [k] /\ k = JS.substring 1 path /\ path = String "/" k
     /\ (String.prefix "assets/" k || String.prefix "uploads/" k
         || String.prefix "invoices/" k = true))
  /\ (Spec.classify path = Spec.Public -> reads = [JS.substring 1 path])
  /\ (Spec.classify path = Spec.Protected ->
      verify (secretKeyData env) path (get (searchParams (url request)) "verify") now
      = Return Ok ->
      reads = [JS.substring 1 path]).
Proof.
  intros Hs path reads. subst reads.
  rewrite (fetch_reads request env now Hs). fold path.
  destruct (Spec.classify path) eqn:Hc.
  - split; [|split; [reflexivity|discriminate]].
    intros k [<-|[]]. destruct (prefix_slash _ _ (classify_public _ Hc)) as [Hp Hk].
    rewrite Hk. repeat split; assumption.
  - split; [intros k []|split; discriminate].
  - split; [|split; [discriminate|intros _ ->; reflexivity]].
    intros k Hk.
    destruct (verify (secretKeyData env) path (get (searchParams (url request)) "verify") now)
      as [[|r]|e]; try destruct Hk as [<-|[]]; try destruct Hk.
    destruct (classify_protected _ Hc) as [Hp|Hp];
      destruct (prefix_slash _ _ Hp) as [Hpath Hkey];
      rewrite Hkey; rewrite ?orb_true_r; repeat split; assumption.
  - split; [intros k []|split; discriminate].
Qed.

Lemma object_key_witness :
  SECRET_DATA test_env <> Some ""
  /\ Spec.classify "/assets/logo.png" = Spec.Public
  /\ fst (fetch (mkRequest (mkURL "/assets/logo.png" [])) test_env 1700000500000)
     = [JS.substring 1 "/assets/logo.png"].
Proof.
  assert (SECRET_DATA test_env <> Some "") as Hs by discriminate.
  assert (Spec.classify "/assets/logo.png" = Spec.Public) as Hc by reflexivity.
  split; [exact Hs|]. split; [exact Hc|].
  exact (proj1 (proj2 (object_key (mkRequest (mkURL "/assets/logo.png" [])) test_env
                         1700000500000 Hs)) Hc).
Defined.

(** * Further properties of the handler *)

(** X1 - Public bypass.  A request for a public path is answered from the
    bucket alone: the query (a [verify] value or any other parameter), the
    clock and the secret have no influence on the answer. *)
Theorem public_bypass (request request' : Request) (env env' : Env) (now now' : Z) :
  SECRET_DATA env <> Some "" ->
  SECRET_DATA env' <> Some "" ->
  Spec.classify (pathname (url request)) = Spec.Public ->
  pathname (url request') = pathname (url request) ->
  THE_R2BUCKET env' (JS.substring 1 (pathname (url request)))
  = THE_R2BUCKET env (JS.substring 1 (pathname (url request))) ->
  fetch request' env' now' = fetch request env now.
Proof.
  intros Hs Hs' Hc Hp Hb. pose proof (classify_public _ Hc) as Ha.
  rewrite (fetch_assets request env now Hs Ha).
  rewrite <- Hp in Ha. rewrite (fetch_assets request' env' now' Hs' Ha).
  now rewrite Hp, Hb.
Qed.

Lemma public_bypass_witness :
  SECRET_DATA test_env <> Some ""
  /\ SECRET_DATA (mkEnv None test_bucket) <> Some ""
  /\ Spec.classify "/assets/logo.png" = Spec.Public
  /\ fetch (mkRequest (mkURL "/assets/logo.png" [("verify", "abc")])) (mkEnv None test_bucket) 5
     = fetch (mkRequest (mkURL "/assets/logo.png" [])) test_env 1700000500000.
Proof.
  assert (SECRET_DATA test_env <> Some "") as Hs by discriminate.
  assert (SECRET_DATA (mkEnv None test_bucket) <> Some "") as Hs' by discriminate.
  assert (Spec.classify (pathname (url (mkRequest (mkURL "/assets/logo.png" []))))
          = Spec.Public) as Hc by reflexivity.
  split; [exact Hs|]. split; [exact Hs'|]. split; [exact Hc|].
  exact (public_bypass (mkRequest (mkURL "/assets/logo.png" []))
           (mkRequest (mkURL "/assets/logo.png" [("verify", "abc")]))
           test_env (mkEnv None test_bucket) 1700000500000 5 Hs Hs' Hc eq_refl eq_refl).
Defined.

(** X2 - Not found.  The handler answers 404 exactly when it asked the
    bucket for a key and the bucket holds no object under it. *)
Theorem not_found_iff (request : Request) (env : Env) (now : Z) :
  SECRET_DATA env <> Some "" ->
  (exists response, snd (fetch request env now) = Return response /\ status response = 404)
  <-> (exists k, fst (fetch request env now) = [k] /\ THE_R2BUCKET env k = None).
Proof.
  intros Hs.
  assert (forall (k : string) (cache : string),
            (exists response,
               Return
                 match THE_R2BUCKET env k with
                 | None => mkResponse 404 (Text "Object Not Found") []
                 | Some o =>
                     mkResponse 200 (Stream (object_body o))
                       [("Content-Type", content_type_of o); ("Cache-Control", cache)]
                 end = Return response /\ status response = 404)
            <-> (exists k', [k] = [k'] /\ THE_R2BUCKET env k' = None)) as Hread.
  { intros k cache. split.
    - intros (r & Hr & H404). exists k. split; [reflexivity|].
      destruct (THE_R2BUCKET env k); [|reflexivity].
      injection Hr as <-. discriminate H404.
    - intros (k' & Hk & Hnone). assert (k' = k) as -> by congruence.
      rewrite Hnone. eexists. split; reflexivity. }
  destruct (Spec.classify (pathname (url request))) eqn:Hc.
  - rewrite (fetch_assets request env now Hs (classify_public _ Hc)). apply Hread.
  - destruct (classify_generate _ Hc) as [Ha Hg].
    rewrite (fetch_generate request env now Hs Ha Hg). cbn [fst snd]. split.
    + intros (r & Hr & H404). injection Hr as <-. discriminate H404.
    + intros (k & Hk & _). discriminate Hk.
  - rewrite (fetch_protected request env now Hs Hc).
    destruct (verify _ _ _ _) as [[|[| |date]]|e]; cbn [fst snd];
      [apply Hread| | | |];
      (split;
       [intros (r & Hr & H404); try discriminate Hr; injection Hr as <-; discriminate H404
       |intros (k & Hk & _); discriminate Hk]).
  - rewrite (fetch_denied request env now Hs Hc). cbn [fst snd]. split.
    + intros (r & Hr & H404). injection Hr as <-. discriminate H404.
    + intros (k & Hk & _). discriminate Hk.
Qed.

Lemma not_found_iff_witness :
  SECRET_DATA test_env <> Some ""
  /\ exists response,
       snd (fetch (mkRequest (mkURL "/assets/logo.png" [])) test_env 1700000500000)
       = Return response /\ status response = 404.
Proof.
  assert (SECRET_DATA test_env <> Some "") as Hs by discriminate.
  split; [exact Hs|].
  apply (proj2 (not_found_iff (mkRequest (mkURL "/assets/logo.png" [])) test_env
                  1700000500000 Hs)).
  exists "assets/logo.png". split; reflexivity.
Defined.

(** X3 - Faults.  With a usable secret the handler throws in one situation
    only: a protected path whose [verify] parameter is present and holds
    no [-].  Every other request gets a response. *)
Theorem fault_iff (request : Request) (env : Env) (now : Z) :
  SECRET_DATA env <> Some "" ->
  (exists e, snd (fetch request env now) = Throw e)
  <-> (Spec.classify (pathname (url request)) = Spec.Protected
       /\ exists raw, get (searchParams (url request)) "verify" = Some raw
                      /\ JS.includes "-" raw = false).
Proof.
  intros Hs. destruct (Spec.classify (pathname (url request))) eqn:Hc.
  - rewrite (fetch_assets request env now Hs (classify_public _ Hc)).
    split; [intros (e & He); discriminate He|intros (H & _); discriminate H].
  - destruct (classify_generate _ Hc) as [Ha Hg].
    rewrite (fetch_generate request env now Hs Ha Hg).
    split; [intros (e & He); discriminate He|intros (H & _); discriminate H].
  - rewrite (fetch_protected request env now Hs Hc).
    destruct (get (searchParams (url request)) "verify") as [raw|] eqn:Hget.
    + destruct (includes_cases "-" raw) as [[Hno _]|[Hyes (ts & mac & rest & Hsplit)]].
      * rewrite (verify_without_separator _ _ raw now Hno). split.
        -- intros _. split; [reflexivity|]. now exists raw.
        -- intros _. now exists TypeError.
      * rewrite (verify_pieces _ _ raw now ts mac rest Hsplit). split.
        -- intros (e & He). destruct (subtle_verify _ _ _); [|discriminate He].
           destruct (JS.gt _ _); discriminate He.
        -- intros (_ & raw' & [= <-] & Hno). congruence.
    + cbn [verify]. split; [intros (e & He); discriminate He|].
      intros (_ & raw & Hraw & _). discriminate Hraw.
  - rewrite (fetch_denied request env now Hs Hc).
    split; [intros (e & He); discriminate He|intros (H & _); discriminate H].
Qed.

Lemma fault_iff_witness :
  SECRET_DATA test_env <> Some ""
  /\ exists e,
       snd (fetch (mkRequest (mkURL test_path [("verify", "")])) test_env 1700000500000)
       = Throw e.
Proof.
  assert (SECRET_DATA test_env <> Some "") as Hs by discriminate.
  split; [exact Hs|].
  apply (proj2 (fault_iff (mkRequest (mkURL test_path [("verify", "")])) test_env
                  1700000500000 Hs)).
  split; [reflexivity|]. exists "". split; reflexivity.
Defined.

(** X4 - From a signed URL to the object.  For a request under
    [/generate/] the answer is the target path (the request path without
    the [/generate] prefix) followed by the query with the new token; when
    the target is a protected path, a request for exactly that path and
    query, made no later than [EXPIRY] seconds after the token's timestamp,
    passes the verifier and reads the target's object from the bucket. *)
Theorem signed_url_is_served (request : Request) (env : Env) (now now' : Z) :
  SECRET_DATA env <> Some "" ->
  0 <= now <= JS.MAX_TIME ->
  String.prefix "/generate/" (pathname (url request)) = true ->
  let target := String "/" (JS.substring 10 (pathname (url request))) in
  let query :=
    set (searchParams (url request)) "verify" (issue (secretKeyData env) target now) in
  Spec.classify target = Spec.Protected ->
  now' <= (now / 1000 + EXPIRY) * 1000 ->
  fetch request env now
  = ([], Return (mkResponse 200 (Text (target ++ search (mkURL target query))) []))
  /\ fst (fetch (mkRequest (mkURL target query)) env now')
     = [JS.substring 10 (pathname (url request))]
  /\ exists response,
       snd (fetch (mkRequest (mkURL target query)) env now') = Return response
       /\ status response <> 403.
Proof.
  intros Hs Hnow Hg target query Hc Hwin.
  assert (JS.replace "/generate/" "/" (pathname (url request)) = target) as Htarget
    by (now rewrite (replace_prefix _ _ _ Hg)).
  split.
  - rewrite (fetch_generate request env now Hs (generate_not_assets _ Hg) Hg).
    cbv zeta. now rewrite Htarget.
  - assert (Spec.classify (pathname (url (mkRequest (mkURL target query))))
            = Spec.Protected) as Hc' by exact Hc.
    rewrite (fetch_protected _ env now' Hs Hc').
    cbn [url pathname searchParams]. unfold query. rewrite get_set.
    rewrite (verify_issued _ target now now' Hnow).
    assert (((now / 1000 + EXPIRY) * 1000 <? now') = false) as -> by (apply Z.ltb_ge; lia).
    split; [reflexivity|]. cbn [snd].
    destruct (THE_R2BUCKET env _); eexists; (split; [reflexivity|discriminate]).
Qed.

Lemma signed_url_is_served_witness :
  SECRET_DATA test_env <> Some ""
  /\ 0 <= 1700000000123 <= JS.MAX_TIME
  /\ String.prefix "/generate/" "/generate/uploads/file.txt" = true
  /\ Spec.classify "/uploads/file.txt" = Spec.Protected
  /\ 1700000500000 <= (1700000000123 / 1000 + EXPIRY) * 1000
  /\ fst (fetch (mkRequest (mkURL "/uploads/file.txt"
                   (set [] "verify" (issue (secretKeyData test_env) "/uploads/file.txt"
                                       1700000000123))))
            test_env 1700000500000)
     = ["uploads/file.txt"].
Proof.
  assert (SECRET_DATA test_env <> Some "") as Hs by discriminate.
  assert (0 <= 1700000000123 <= JS.MAX_TIME) as Hnow by (vm_compute; split; discriminate).
  assert (String.prefix "/generate/"
            (pathname (url (mkRequest (mkURL "/generate/uploads/file.txt" [])))) = true)
    as Hg by reflexivity.
  assert (Spec.classify "/uploads/file.txt" = Spec.Protected) as Hc by reflexivity.
  assert (1700000500000 <= (1700000000123 / 1000 + EXPIRY) * 1000) as Hwin
    by (vm_compute; discriminate).
  split; [exact Hs|]. split; [exact Hnow|]. split; [exact Hg|]. split; [exact Hc|].
  split; [exact Hwin|].
  exact (proj1 (proj2 (signed_url_is_served
                         (mkRequest (mkURL "/generate/uploads/file.txt" [])) test_env
                         1700000000123 1700000500000 Hs Hnow Hg Hc Hwin))).
Defined.

(** X5 - The query of a signed URL.  The answer to a generate request is
    the target path, a [?] and the serialized query, in which exactly one
    parameter is called [verify], holding the token issued for the target,
    while the other parameters of the request are kept, in their order: a
    [verify] value sent with the generate request is replaced. *)
Theorem signed_url_query (request : Request) (env : Env) (now : Z) :
  SECRET_DATA env <> Some "" ->
  String.prefix "/generate/" (pathname (url request)) = true ->
  exists target query,
    fetch request env now
    = ([], Return (mkResponse 200 (Text (target ++ "?" ++ serialize query)) []))
    /\ target = String "/" (JS.substring 10 (pathname (url request)))
    /\ filter (fun p => String.eqb (fst p) "verify") query
       = [("verify", issue (secretKeyData env) target now)]
    /\ remove query "verify" = remove (searchParams (url request)) "verify".
Proof.
  intros Hs Hg.
  exists (String "/" (JS.substring 10 (pathname (url request)))).
  exists (set (searchParams (url request)) "verify"
            (issue (secretKeyData env)
               (String "/" (JS.substring 10 (pathname (url request)))) now)).
  split; [|split; [reflexivity|split; [apply named_set|apply remove_set]]].
  rewrite (fetch_generate request env now Hs (generate_not_assets _ Hg) Hg).
  cbv zeta. rewrite (replace_prefix _ _ _ Hg).
  change ("/" ++ JS.substring (String.length "/generate/") (pathname (url request)))
    with (String "/" (JS.substring 10 (pathname (url request)))).
  unfold search. cbn [searchParams].
  pose proof (named_set (searchParams (url request)) "verify"
                (issue (secretKeyData env)
                   (String "/" (JS.substring 10 (pathname (url request)))) now)) as Hone.
  destruct (set _ _ _); [discriminate Hone|reflexivity].
Qed.

Lemma signed_url_query_witness :
  SECRET_DATA test_env <> Some ""
  /\ String.prefix "/generate/" "/generate/uploads/file.txt" = true
  /\ exists target query,
       fetch (mkRequest (mkURL "/generate/uploads/file.txt" [("verify", "old"); ("a", "b")]))
         test_env 1700000000123
       = ([], Return (mkResponse 200 (Text (target ++ "?" ++ serialize query)) []))
       /\ target = "/uploads/file.txt"
       /\ filter (fun p => String.eqb (fst p) "verify") query
          = [("verify", issue (secretKeyData test_env) target 1700000000123)]
       /\ remove query "verify" = [("a", "b")].
Proof.
  assert (SECRET_DATA test_env <> Some "") as Hs by discriminate.
  assert (String.prefix "/generate/"
            (pathname (url (mkRequest
               (mkURL "/generate/uploads/file.txt" [("verify", "old"); ("a", "b")])))) = true)
    as Hg by reflexivity.
  split; [exact Hs|]. split; [exact Hg|].
  exact (signed_url_query _ test_env 1700000000123 Hs Hg).
Defined.

(** X6 - The window of an issued token, to the millisecond.  A token issued
    at timestamp [t] is accepted for its path up to and including the
    instant [(t + EXPIRY) * 1000]; from the next millisecond on it is
    refused as expired, and the date reported is that instant. *)
Theorem issued_token_window (key : CryptoKey) (p : string) (now now' : Z) :
  0 <= now ->
  (now / 1000 + EXPIRY) * 1000 <= JS.MAX_TIME ->
  (now' <= (now / 1000 + EXPIRY) * 1000 ->
   verify key p (Some (issue key p now)) now' = Return Ok)
  /\ ((now / 1000 + EXPIRY) * 1000 < now' ->
      verify key p (Some (issue key p now)) now'
      = Return (Err (Expired (Some ((now / 1000 + EXPIRY) * 1000))))).
Proof.
  intros H0 Hmax.
  assert (0 <= now / 1000) as Hq by (apply Z.div_pos; lia).
  assert (0 <= now <= JS.MAX_TIME) as Hnow.
  { split; [exact H0|]. unfold EXPIRY in Hmax.
    pose proof (Z.mul_div_le now 1000 ltac:(lia)). pose proof (Z.mod_pos_bound now 1000).
    pose proof (Z.div_mod now 1000). lia. }
  rewrite (verify_issued key p now now' Hnow), (deadline_value _ Hq Hmax).
  split; intros H.
  - assert (((now / 1000 + EXPIRY) * 1000 <? now') = false) as -> by (apply Z.ltb_ge; lia).
    reflexivity.
  - assert (((now / 1000 + EXPIRY) * 1000 <? now') = true) as -> by (apply Z.ltb_lt; lia).
    reflexivity.
Qed.

Lemma issued_token_window_witness :
  0 <= 1700000000123
  /\ (1700000000123 / 1000 + EXPIRY) * 1000 <= JS.MAX_TIME
  /\ (1700000000123 / 1000 + EXPIRY) * 1000 < 1700000600001
  /\ verify test_key test_path (Some (issue test_key test_path 1700000000123)) 1700000600001
     = Return (Err (Expired (Some ((1700000000123 / 1000 + EXPIRY) * 1000)))).
Proof.
  assert (0 <= 1700000000123) as H0 by (vm_compute; discriminate).
  assert ((1700000000123 / 1000 + EXPIRY) * 1000 <= JS.MAX_TIME) as Hmax
    by (vm_compute; discriminate).
  assert ((1700000000123 / 1000 + EXPIRY) * 1000 < 1700000600001) as Hlate
    by (vm_compute; reflexivity).
  split; [exact H0|]. split; [exact Hmax|]. split; [exact Hlate|].
  exact (proj2 (issued_token_window test_key test_path 1700000000123 1700000600001 H0 Hmax)
           Hlate).
Defined.

(** X7 - The MAC is checked before the expiry.  A [verify] value that is
    answered with the expiry message at some instant has passed the MAC
    comparison: it holds a [-], at no instant is it answered with a MAC
    mismatch, a missing token or a fault, and when its timestamp is
    written in decimal digits (below [2^53]) and its mac text in base64
    characters, that text decodes to the MAC of the requested path
    followed by the timestamp. *)
Theorem expired_only_after_mac (key : CryptoKey) (p : string) (param : option string)
    (now : Z) (date : option Z) :
  verify key p param now = Return (Err (Expired date)) ->
  (forall now',
     verify key p param now' = Return Ok
     \/ exists date', verify key p param now' = Return (Err (Expired date')))
  /\ exists raw ts mac rest,
       param = Some raw
       /\ JS.split "-" raw = ts :: mac :: rest
       /\ forall n,
            JS.digits_only ts = Some n -> Z.of_N n < 2 ^ 53 -> Base64.plain mac = true ->
            Base64.decode mac = SHA256.hmac key (encode (Spec.CanonicalMessage p n)).
Proof.
  destruct param as [raw|]; [|discriminate].
  destruct (includes_cases "-" raw) as [[Hno _]|[_ (ts & mac & rest & Hsplit)]].
  - rewrite (verify_without_separator key p raw now Hno). discriminate.
  - rewrite (verify_pieces key p raw now ts mac rest Hsplit). unfold subtle_verify.
    destruct (bytes_eqb _ _) eqn:Hmac; [|discriminate].
    intros _. split.
    + intros now'. rewrite (verify_pieces key p raw now' ts mac rest Hsplit).
      unfold subtle_verify. rewrite Hmac.
      destruct (JS.gt _ _); [right; eexists; reflexivity|left; reflexivity].
    + exists raw, ts, mac, rest. split; [reflexivity|]. split; [exact Hsplit|].
      intros n Hd Hn _. apply bytes_eqb_eq in Hmac.
      rewrite (Number_digits ts n Hd Hn) in Hmac. unfold dataToAuthenticate in Hmac.
      rewrite (JSFacts.to_string_decimal n Hn) in Hmac. now rewrite <- Hmac.
Qed.

Lemma expired_only_after_mac_witness :
  verify test_key test_path (Some (issue test_key test_path 1700000000123)) 1700000700000
  = Return (Err (Expired (Some 1700000600000)))
  /\ (verify test_key test_path (Some (issue test_key test_path 1700000000123)) 1700000500000
      = Return Ok
      \/ exists date',
           verify test_key test_path (Some (issue test_key test_path 1700000000123))
             1700000500000 = Return (Err (Expired date'))).
Proof.
  assert (verify test_key test_path (Some (issue test_key test_path 1700000000123))
            1700000700000 = Return (Err (Expired (Some 1700000600000)))) as H
    by (vm_compute; reflexivity).
  split; [exact H|].
  exact (proj1 (expired_only_after_mac test_key test_path _ 1700000700000 _ H)
           1700000500000).
Defined.

(** X8 - A MAC of the wrong length.  A [verify] value whose second piece
    is written in base64 characters and does not decode to 32 bytes (an
    empty piece, a truncated MAC, a longer one) is answered with a MAC
    mismatch, whatever the timestamp and the clock. *)
Theorem wrong_length_mac_rejected (key : CryptoKey) (p raw : string) (now : Z)
    (ts mac : string) (rest : list string) :
  JS.split "-" raw = ts :: mac :: rest ->
  Base64.plain mac = true ->
  List.length (Base64.decode mac) <> 32%nat ->
  verify key p (Some raw) now = Return (Err MacMismatch).
Proof.
  intros Hsplit _ Hlen. rewrite (verify_pieces key p raw now ts mac rest Hsplit).
  unfold subtle_verify. destruct (bytes_eqb _ _) eqn:Hmac; [|reflexivity].
  apply bytes_eqb_eq in Hmac. elim Hlen. rewrite <- Hmac. apply hmac_length.
Qed.

Lemma wrong_length_mac_rejected_witness :
  JS.split "-" "1700000000-HbpiiOXOpWRiGPMQenfTuxLZaWkrsdLUDT8OXH7E"
  = ["1700000000"; "HbpiiOXOpWRiGPMQenfTuxLZaWkrsdLUDT8OXH7E"]
  /\ Base64.plain "HbpiiOXOpWRiGPMQenfTuxLZaWkrsdLUDT8OXH7E" = true
  /\ List.length (Base64.decode "HbpiiOXOpWRiGPMQenfTuxLZaWkrsdLUDT8OXH7E") <> 32%nat
  /\ verify test_key test_path (Some "1700000000-HbpiiOXOpWRiGPMQenfTuxLZaWkrsdLUDT8OXH7E")
       1700000500000
     = Return (Err MacMismatch).
Proof.
  assert (JS.split "-" "1700000000-HbpiiOXOpWRiGPMQenfTuxLZaWkrsdLUDT8OXH7E"
          = ["1700000000"; "HbpiiOXOpWRiGPMQenfTuxLZaWkrsdLUDT8OXH7E"]) as Hsplit
    by reflexivity.
  assert (Base64.plain "HbpiiOXOpWRiGPMQenfTuxLZaWkrsdLUDT8OXH7E" = true) as Hplain
    by reflexivity.
  assert (List.length (Base64.decode "HbpiiOXOpWRiGPMQenfTuxLZaWkrsdLUDT8OXH7E") <> 32%nat)
    as Hlen by (vm_compute; discriminate).
  split; [exact Hsplit|]. split; [exact Hplain|]. split; [exact Hlen|].
  exact (wrong_length_mac_rejected test_key test_path _ 1700000500000 _ _ _
           Hsplit Hplain Hlen).
Defined.

(** X9 - What the bucket cannot change.  The answer to a generate request,
    to a denied path and to a protected request that the verifier did not
    accept is the same whatever the bucket holds. *)
Theorem bucket_has_no_say (request : Request) (secret : option string)
    (bucket bucket' : R2Bucket) (now : Z) :
  secret <> Some "" ->
  Spec.classify (pathname (url request)) <> Spec.Public ->
  (Spec.classify (pathname (url request)) = Spec.Protected ->
   verify (secretKeyData (mkEnv secret bucket)) (pathname (url request))
     (get (searchParams (url request)) "verify") now <> Return Ok) ->
  fetch request (mkEnv secret bucket) now = fetch request (mkEnv secret bucket') now.
Proof.
  intros Hsecret Hpub Hver.
  assert (SECRET_DATA (mkEnv secret bucket) <> Some "") as Hs by exact Hsecret.
  assert (SECRET_DATA (mkEnv secret bucket') <> Some "") as Hs' by exact Hsecret.
  destruct (Spec.classify (pathname (url request))) eqn:Hc.
  - now elim Hpub.
  - destruct (classify_generate _ Hc) as [Ha Hg].
    now rewrite (fetch_generate request _ now Hs Ha Hg),
                (fetch_generate request _ now Hs' Ha Hg).
  - rewrite (fetch_protected request _ now Hs Hc), (fetch_protected request _ now Hs' Hc).
    specialize (Hver eq_refl).
    change (secretKeyData (mkEnv secret bucket')) with (secretKeyData (mkEnv secret bucket)).
    destruct (verify _ _ _ _) as [[|[| |date]]|e]; try reflexivity. now elim Hver.
  - now rewrite (fetch_denied request _ now Hs Hc), (fetch_denied request _ now Hs' Hc).
Qed.

Lemma bucket_has_no_say_witness :
  Some "test-secret" <> Some ""
  /\ Spec.classify test_path <> Spec.Public
  /\ fetch (mkRequest (mkURL test_path [("verify", "1-AAAA")]))
       (mkEnv (Some "test-secret") test_bucket) 1700000500000
     = fetch (mkRequest (mkURL test_path [("verify", "1-AAAA")]))
         (mkEnv (Some "test-secret") (fun _ => None)) 1700000500000.
Proof.
  assert (Some "test-secret" <> Some "") as Hs by discriminate.
  assert (Spec.classify (pathname (url (mkRequest (mkURL test_path [("verify", "1-AAAA")]))))
          <> Spec.Public) as Hc by discriminate.
  split; [exact Hs|]. split; [exact Hc|].
  apply (bucket_has_no_say (mkRequest (mkURL test_path [("verify", "1-AAAA")]))
           (Some "test-secret") test_bucket (fun _ => None) 1700000500000 Hs Hc).
  intros _. vm_compute. discriminate.
Defined.

(** X10 - The clock only closes the window.  A [verify] value accepted at
    some instant is accepted at every earlier instant, for any value at
    all; and whether the answer is a MAC mismatch, or a fault, does not
    depend on the clock. *)
Theorem clock_only_expires (key : CryptoKey) (p : string) (param : option string)
    (now now' : Z) :
  now <= now' ->
  (verify key p param now' = Return Ok -> verify key p param now = Return Ok)
  /\ (verify key p param now = Return (Err MacMismatch)
      <-> verify key p param now' = Return (Err MacMismatch))
  /\ (forall e, verify key p param now = Throw e <-> verify key p param now' = Throw e).
Proof.
  intros Hle. unfold verify. destruct param as [raw|].
  - destruct (Buffer_from_base64 _) as [receivedMac|e0].
    + destruct (negb _).
      * split; [discriminate|]. split; [tauto|]. intros e. split; discriminate.
      * pose proof (gt_clock_mono now now'
                      (JS.add (JS.Number (nth 0 (JS.split "-" raw) ""))
                         (JS.of_Z EXPIRY)) Hle) as Hmono.
        destruct (JS.gt (JS.div1000 (JS.of_Z now)) _).
        -- rewrite (Hmono eq_refl).
           split; [discriminate|]. split; [split; discriminate|].
           intros e. split; discriminate.
        -- split; [reflexivity|].
           destruct (JS.gt (JS.div1000 (JS.of_Z now')) _);
             (split; [split; discriminate|intros e; split; discriminate]).
    + split; [discriminate|]. split; [tauto|]. tauto.
  - split; [discriminate|]. split; [tauto|]. tauto.
Qed.

Lemma clock_only_expires_witness :
  1600000000000 <= 1700000500000
  /\ (verify test_key test_path (Some (issue test_key test_path 1700000000123)) 1700000500000
      = Return Ok ->
      verify test_key test_path (Some (issue test_key test_path 1700000000123)) 1600000000000
      = Return Ok).
Proof.
  assert (1600000000000 <= 1700000500000) as Hle by (vm_compute; discriminate).
  split; [exact Hle|].
  exact (proj1 (clock_only_expires test_key test_path _ 1600000000000 1700000500000 Hle)).
Defined.

(** X11 - The timestamp text is not canonical.  The verifier converts the
    timestamp text to a number and signs the number's decimal form, so a
    token whose timestamp is written with leading zeros gets the same
    answer as the token written the canonical way. *)
Theorem timestamp_text_normalised (key : CryptoKey) (p digits : string) (n : N)
    (mac : bytes) (now : Z) :
  JS.digits_only digits = Some n ->
  Z.of_N n < 2 ^ 53 ->
  verify key p (Some (digits ++ "-" ++ Base64.encode mac)) now
  = verify key p (Some (Spec.serialize n mac)) now.
Proof.
  intros Hd Hn.
  rewrite (verify_pieces key p (digits ++ "-" ++ Base64.encode mac) now digits
             (Base64.encode mac) []
             (JSFacts.split_two "-" digits _ (digits_only_plain _ _ Hd)
                (TokenFacts.encode_plain mac))).
  rewrite (verify_pieces key p (Spec.serialize n mac) now _ _ []
             (TokenFacts.split_serialize n mac)).
  now rewrite (Number_digits _ _ Hd Hn), (JSFacts.Number_decimal _ Hn).
Qed.

Lemma timestamp_text_normalised_witness :
  JS.digits_only "0001700000000" = Some 1700000000%N
  /\ Z.of_N 1700000000 < 2 ^ 53
  /\ verify test_key test_path (Some ("0001700000000" ++ "-" ++ Base64.encode test_tag))
       1700000500000
     = verify test_key test_path (Some (Spec.serialize 1700000000 test_tag)) 1700000500000.
Proof.
  assert (JS.digits_only "0001700000000" = Some 1700000000%N) as Hd by reflexivity.
  assert (Z.of_N 1700000000 < 2 ^ 53) as Hn by (vm_compute; reflexivity).
  split; [exact Hd|]. split; [exact Hn|].
  exact (timestamp_text_normalised test_key test_path _ _ test_tag 1700000500000 Hd Hn).
Defined.

(** X12 - No number, no expiry.  When the timestamp text is made of
    letters ([Number] gives [NaN], or [Infinity] for that word) the
    comparison with the clock is false at every instant: the value is
    never answered with the expiry message, and the answer it gets does
    not depend on the clock. With the MAC of the path followed by [NaN]
    such a value is accepted for ever. *)
Theorem no_number_no_expiry (key : CryptoKey) (p raw : string) (now now' : Z)
    (date : option Z) :
  JS.letters (nth 0 (JS.split "-" raw) "") = true ->
  verify key p (Some raw) now <> Return (Err (Expired date))
  /\ verify key p (Some raw) now = verify key p (Some raw) now'.
Proof.
  intros Hts. apply Number_letters in Hts. unfold verify.
  destruct (Buffer_from_base64 _) as [receivedMac|e]; [|split; [discriminate|reflexivity]].
  destruct (negb _); [split; [discriminate|reflexivity]|].
  destruct Hts as [-> | ->]; (split; [discriminate|reflexivity]).
Qed.

Example nan_token_never_expires :
  verify test_key test_path
    (Some ("NaN-" ++ Base64.encode (subtle_sign test_key (encode (test_path ++ "NaN")))))
    4000000000000
  = Return Ok.
Proof. vm_compute. reflexivity. Qed.

Lemma no_number_no_expiry_witness :
  JS.letters
    (nth 0 (JS.split "-"
              ("NaN-" ++ Base64.encode (subtle_sign test_key (encode (test_path ++ "NaN")))))
       "") = true
  /\ verify test_key test_path
       (Some ("NaN-" ++ Base64.encode (subtle_sign test_key (encode (test_path ++ "NaN")))))
       1700000500000
     = verify test_key test_path
         (Some ("NaN-" ++ Base64.encode (subtle_sign test_key (encode (test_path ++ "NaN")))))
         4000000000000.
Proof.
  assert (JS.letters
            (nth 0 (JS.split "-"
                      ("NaN-" ++ Base64.encode
                                   (subtle_sign test_key (encode (test_path ++ "NaN")))))
               "") = true) as H by (vm_compute; reflexivity).
  split; [exact H|].
  exact (proj2 (no_number_no_expiry test_key test_path _ 1700000500000 4000000000000 None H)).
Defined.

(** X13 - When content leaves the bucket.  A response that carries object
    content has status 200 and carries the object stored under the
    request path without its leading [/]; it is given only for a public
    path, or for a protected path whose [verify] value the verifier
    accepted. *)
Theorem content_only_when_allowed (request : Request) (env : Env) (now : Z)
    (response : Response) (content : bytes) :
  SECRET_DATA env <> Some "" ->
  snd (fetch request env now) = Return response ->
  body response = Stream content ->
  (Spec.classify (pathname (url request)) = Spec.Public
   \/ (Spec.classify (pathname (url request)) = Spec.Protected
       /\ verify (secretKeyData env) (pathname (url request))
            (get (searchParams (url request)) "verify") now = Return Ok))
  /\ status response = 200
  /\ exists o, THE_R2BUCKET env (JS.substring 1 (pathname (url request))) = Some o
               /\ content = object_body o.
Proof.
  intros Hs Hr Hbody. destruct (Spec.classify (pathname (url request))) eqn:Hc.
  - rewrite (fetch_assets request env now Hs (classify_public _ Hc)) in Hr. cbn [snd] in Hr.
    split; [now left|].
    destruct (THE_R2BUCKET env _) as [o|]; injection Hr as <-; [|discriminate Hbody].
    split; [reflexivity|]. exists o. split; [reflexivity|].
    cbn [body] in Hbody. congruence.
  - destruct (classify_generate _ Hc) as [Ha Hg].
    rewrite (fetch_generate request env now Hs Ha Hg) in Hr.
    injection Hr as <-. discriminate Hbody.
  - rewrite (fetch_protected request env now Hs Hc) in Hr.
    destruct (verify _ _ _ _) as [[|[| |date]]|e]; cbn [snd] in Hr;
      try discriminate Hr; try (injection Hr as <-; discriminate Hbody).
    split; [right; now split|].
    destruct (THE_R2BUCKET env _) as [o|]; injection Hr as <-; [|discriminate Hbody].
    split; [reflexivity|]. exists o. split; [reflexivity|].
    cbn [body] in Hbody. congruence.
  - rewrite (fetch_denied request env now Hs Hc) in Hr.
    injection Hr as <-. discriminate Hbody.
Qed.

Lemma content_only_when_allowed_witness :
  SECRET_DATA test_env <> Some ""
  /\ (Spec.classify test_path = Spec.Public
      \/ (Spec.classify test_path = Spec.Protected
          /\ verify (secretKeyData test_env) test_path
               (get [("verify", issue test_key test_path 1700000000123)] "verify")
               1700000500000 = Return Ok)).
Proof.
  assert (SECRET_DATA test_env <> Some "") as Hs by discriminate.
  split; [exact Hs|].
  apply (content_only_when_allowed
           (mkRequest (mkURL test_path [("verify", issue test_key test_path 1700000000123)]))
           test_env 1700000500000
           (mkResponse 200 (Stream (encode "hello"))
              [("Content-Type", "application/octet-stream");
               ("Cache-Control", "private, no-store")])
           (encode "hello") Hs).
  - vm_compute. reflexivity.
  - reflexivity.
Defined.

(** X14 - The shape of an issued token.  The token put into [verify] is
    the decimal timestamp, one [-] and 44 characters of base64; it splits
    at [-] into exactly these two pieces, and the second decodes to the
    32 bytes of the MAC. *)
Theorem issued_token_shape (key : CryptoKey) (p : string) (now : Z) :
  0 <= now <= JS.MAX_TIME ->
  exists mac_text,
    issue key p now = JS.decimal (Z.to_N (now / 1000)) ++ "-" ++ mac_text
    /\ JS.split "-" (issue key p now) = [JS.decimal (Z.to_N (now / 1000)); mac_text]
    /\ String.length mac_text = 44%nat
    /\ Base64.decode mac_text
       = SHA256.hmac key (encode (p ++ JS.decimal (Z.to_N (now / 1000))))
    /\ List.length (Base64.decode mac_text) = 32%nat.
Proof.
  intros Hnow. destruct (TokenFacts.clock_bound now Hnow) as [Hq0 Hq1].
  rewrite (TokenFacts.issue_serialize key p now) by lia.
  eexists. split; [reflexivity|]. split; [apply TokenFacts.split_serialize|].
  split; [now rewrite encode_length, hmac_length|].
  rewrite Base64Facts.decode_encode. split; [reflexivity|apply hmac_length].
Qed.

Lemma issued_token_shape_witness :
  0 <= 1700000000123 <= JS.MAX_TIME
  /\ exists mac_text,
       issue test_key test_path 1700000000123
       = JS.decimal (Z.to_N (1700000000123 / 1000)) ++ "-" ++ mac_text
       /\ JS.split "-" (issue test_key test_path 1700000000123)
          = [JS.decimal (Z.to_N (1700000000123 / 1000)); mac_text]
       /\ String.length mac_text = 44%nat
       /\ Base64.decode mac_text
          = SHA256.hmac test_key
              (encode (test_path ++ JS.decimal (Z.to_N (1700000000123 / 1000))))
       /\ List.length (Base64.decode mac_text) = 32%nat.
Proof.
  assert (0 <= 1700000000123 <= JS.MAX_TIME) as Hnow by (vm_compute; split; discriminate).
  split; [exact Hnow|].
  exact (issued_token_shape test_key test_path 1700000000123 Hnow).
Defined.

(** X15 - Refusals.  The handler answers 403 exactly for a path that is
    neither public, generate nor protected, and for a protected path whose
    request the verifier rejected; a public or a generate request is
    never refused. *)
Theorem forbidden_iff (request : Request) (env : Env) (now : Z) :
  SECRET_DATA env <> Some "" ->
  (exists response, snd (fetch request env now) = Return response /\ status response = 403)
  <-> (Spec.classify (pathname (url request)) = Spec.Denied
       \/ (Spec.classify (pathname (url request)) = Spec.Protected
           /\ exists r, verify (secretKeyData env) (pathname (url request))
                          (get (searchParams (url request)) "verify") now
                        = Return (Err r))).
Proof.
  intros Hs. destruct (Spec.classify (pathname (url request))) eqn:Hc.
  - rewrite (fetch_assets request env now Hs (classify_public _ Hc)). cbn [snd]. split.
    + intros (r & Hr & H403). injection Hr as <-.
      destruct (THE_R2BUCKET env _); discriminate H403.
    + intros [H|[H _]]; discriminate H.
  - destruct (classify_generate _ Hc) as [Ha Hg].
    rewrite (fetch_generate request env now Hs Ha Hg). cbn [snd]. split.
    + intros (r & Hr & H403). injection Hr as <-. discriminate H403.
    + intros [H|[H _]]; discriminate H.
  - rewrite (fetch_protected request env now Hs Hc).
    destruct (verify _ _ _ _) as [[|[| |date]]|e]; cbn [snd]; split;
      try (intros _; eexists; split; reflexivity);
      try (intros _; right; split; [reflexivity|eexists; reflexivity]).
    + intros (r & Hr & H403). injection Hr as <-.
      destruct (THE_R2BUCKET env _); discriminate H403.
    + intros [H|[_ (r & H)]]; discriminate H.
    + intros (r & Hr & _). discriminate Hr.
    + intros [H|[_ (r & H)]]; discriminate H.
  - rewrite (fetch_denied request env now Hs Hc). cbn [snd]. split.
    + intros _. now left.
    + intros _. eexists. split; reflexivity.
Qed.

Lemma forbidden_iff_witness :
  SECRET_DATA test_env <> Some ""
  /\ exists response,
       snd (fetch (mkRequest (mkURL test_path [])) test_env 1700000500000) = Return response
       /\ status response = 403.
Proof.
  assert (SECRET_DATA test_env <> Some "") as Hs by discriminate.
  split; [exact Hs|].
  apply (proj2 (forbidden_iff (mkRequest (mkURL test_path [])) test_env 1700000500000 Hs)).
  right. split; [reflexivity|]. exists MissingToken. reflexivity.
Defined.
